(** * DynStack: a linked stack of opaque element references

    A shallow embedding of [src/DynStack.c] (with the structures of
    [DynStack.h]) over an explicit memory, and the properties of the
    container proved on it.

    Modelling conventions.
    - A pointer is an abstract address in [Z]; [NULL] is [0].  Each allocated
      object (a [DynFrame] or a [DynStack]) occupies one address.  Addresses
      are not bounded: as on a platform whose pointers are wider than its
      [unsigned int], a memory can hold more than [2^32] nodes.
    - [unsigned int] is 32 bits wide; the [size] field is a [Z] kept in
      [0 .. 2^32 - 1] with the wrap-around of [++] and [--] written out.
    - The elements belong to the caller.  Whatever the caller-supplied
      functions touch is the caller's world [W]: the releaser and the visitor
      transform it, the renderer reads it.
    - [malloc] either hands out the next unused address or returns [NULL];
      which of the two is decided by the stream [avail] of the allocator's
      answers to the coming requests of this library.
    - A dereference of [NULL] or of an address holding no object has no defined
      behaviour in C: the operation yields [Undefined].
    - Loops carry fuel; running out of it yields [OutOfFuel].
    - The standard output is the text written to it so far: the two print
      conveniences take it and return it extended. *)

From Stdlib Require Import ZArith Lia String Ascii.
From stdpp Require Import base numbers list gmap strings pretty.

Local Open Scope Z_scope.

(** ** Pointers and machine integers *)

Abbreviation ptr := Z (only parsing).
Definition NULL : ptr := 0.

Definition UINT_BITS : Z := 32.
Definition UINT_RANGE : Z := 2 ^ UINT_BITS.
Definition UINT_MAX : Z := UINT_RANGE - 1.

(** Conversion of a mathematical integer to [unsigned int]. *)
Definition to_uint (z : Z) : Z := z mod UINT_RANGE.

Definition newline : string := String (ascii_of_nat 10) EmptyString.

(** ** Structures *)

(** [struct dynamicStackFrame]: a node of the linked stack. *)
Record DynFrame : Type := mkFrame {
  data : ptr;
  next : ptr
}.

Section DynStack.

(** The caller's world: everything the supplied functions act on. *)
Context {W : Type}.

(** A pointer to a function taking an element and returning nothing: it is
    called for its effect on the world.  In a structure field [None] is the
    null function pointer. *)
Definition effect_fn : Type := ptr -> W -> W.

(** A pointer to a function taking an element and returning its text. *)
Definition print_fn : Type := W -> ptr -> string.

(** [struct dynamicStack]: the metadata head of the stack. *)
Record DynStack : Type := mkStack {
  top : ptr;
  size : Z;
  deleteData : option effect_fn;
  printData : option print_fn
}.

(** The memory the library runs on. *)
Record mem : Type := mkMem {
  frames : gmap Z DynFrame;
  stacks : gmap Z DynStack;
  brk : Z;
  avail : nat -> bool;
  world : W
}.

Definition set_frames (f : gmap Z DynFrame -> gmap Z DynFrame) (m : mem) : mem :=
  mkMem (f (frames m)) (stacks m) (brk m) (avail m) (world m).
Definition set_stacks (f : gmap Z DynStack -> gmap Z DynStack) (m : mem) : mem :=
  mkMem (frames m) (f (stacks m)) (brk m) (avail m) (world m).
Definition set_world (f : W -> W) (m : mem) : mem :=
  mkMem (frames m) (stacks m) (brk m) (avail m) (f (world m)).

(** ** Outcomes and the monad of operations *)

Inductive outcome (A : Type) : Type :=
| Done (a : A) (m : mem)
| Undefined
| OutOfFuel.
Arguments Done {A} a m.
Arguments Undefined {A}.
Arguments OutOfFuel {A}.

Definition M (A : Type) : Type := mem -> outcome A.

Definition ret {A} (a : A) : M A := fun m => Done a m.
Definition bind {A B} (c : M A) (k : A -> M B) : M B :=
  fun m => match c m with
           | Done a m' => k a m'
           | Undefined => Undefined
           | OutOfFuel => OutOfFuel
           end.
Definition undefined {A} : M A := fun _ => Undefined.
Definition out_of_fuel {A} : M A := fun _ => OutOfFuel.

Notation "'do' x <- c1 ; c2" := (bind c1 (fun x => c2))
  (at level 10, x name, c1 at level 100, c2 at level 200,
   format "'[v' 'do'  x  <-  c1 ; '/' c2 ']'").
Notation "'run' c1 ; c2" := (bind c1 (fun _ => c2))
  (at level 10, c1 at level 100, c2 at level 200,
   format "'[v' 'run'  c1 ; '/' c2 ']'").

(** ** Primitive memory actions *)

(** The memory once the allocator has answered one request. *)
Definition answered (m : mem) : mem :=
  mkMem (frames m) (stacks m) (brk m) (fun n => avail m (S n)) (world m).

(** One request to the allocator: the answer is the head of [avail]. *)
Definition request : M bool :=
  fun m => Done (avail m 0%nat) (answered m).

(** [malloc] of one object: the next unused address, or [NULL]. *)
Definition malloc : M ptr :=
  do ok <- request;
  if ok : bool
  then fun m => Done (brk m)
                     (mkMem (frames m) (stacks m) (brk m + 1) (avail m) (world m))
  else ret NULL.

Definition load_frame (p : ptr) : M DynFrame :=
  fun m => match frames m !! p with
           | Some f => Done f m
           | None => Undefined
           end.

(** The first writes to a freshly allocated node. *)
Definition init_frame (p : ptr) (f : DynFrame) : M unit :=
  fun m => if decide (p = NULL) then Undefined
           else Done tt (set_frames (insert p f) m).

(** An assignment to a field of the node at [p]. *)
Definition write_frame (p : ptr) (g : DynFrame -> DynFrame) : M unit :=
  fun m => match frames m !! p with
           | Some f => Done tt (set_frames (insert p (g f)) m)
           | None => Undefined
           end.

(** [free] of the node at [p]. *)
Definition free_frame (p : ptr) : M unit :=
  fun m => match frames m !! p with
           | Some _ => Done tt (set_frames (delete p) m)
           | None => Undefined
           end.

Definition load_stack (p : ptr) : M DynStack :=
  fun m => match stacks m !! p with
           | Some s => Done s m
           | None => Undefined
           end.

Definition init_stack (p : ptr) (s : DynStack) : M unit :=
  fun m => if decide (p = NULL) then Undefined
           else Done tt (set_stacks (insert p s) m).

Definition write_stack (p : ptr) (g : DynStack -> DynStack) : M unit :=
  fun m => match stacks m !! p with
           | Some s => Done tt (set_stacks (insert p (g s)) m)
           | None => Undefined
           end.

Definition free_stack (p : ptr) : M unit :=
  fun m => match stacks m !! p with
           | Some _ => Done tt (set_stacks (delete p) m)
           | None => Undefined
           end.

(** A call through a function pointer of the first kind. *)
Definition call (f : option effect_fn) (x : ptr) : M unit :=
  match f with
  | Some g => fun m => Done tt (set_world (g x) m)
  | None => undefined
  end.

(** A call of the renderer: the text it returns. *)
Definition render (f : option print_fn) (x : ptr) : M string :=
  match f with
  | Some g => fun m => Done (g (world m) x) m
  | None => undefined
  end.

(** ** Text buffers

    A [char *] is [None] for [NULL] and otherwise the characters before the
    terminating zero.  The byte counts handed to the allocator are not
    modelled: a served request is large enough. *)

Definition text : Type := option string.

(** [malloc] of a character buffer, its contents indeterminate. *)
Definition malloc_text : M text :=
  do ok <- request;
  ret (if ok : bool then Some EmptyString else None).

(** [realloc]: the same characters in a larger buffer, or [NULL]. *)
Definition realloc_text (t : text) : M text :=
  do ok <- request;
  ret (if ok : bool then t else None).

(** [t[0] = 0]. *)
Definition terminate_text (t : text) : M text :=
  match t with
  | Some _ => ret (Some EmptyString)
  | None => undefined
  end.

Definition strcat (t : text) (s : string) : M text :=
  match t with
  | Some a => ret (Some (a +:+ s))
  | None => undefined
  end.

(** ** The operations of DynStack.c *)

Definition is_null_fn {A} (f : option A) : bool :=
  match f with
  | None => true
  | Some _ => false
  end.

Definition dynstackNew (deleteFunc : option effect_fn)
    (printFunc : option print_fn) : M ptr :=
  if is_null_fn deleteFunc || is_null_fn printFunc then ret NULL
  else
    do toReturn <- malloc;
    if decide (toReturn = NULL) then ret NULL
    else
      (* top = NULL, size = 0, deleteData = deleteFunc, printData = printFunc *)
      run init_stack toReturn (mkStack NULL 0 deleteFunc printFunc);
      ret toReturn.

Definition dynstackFrameNew (d : ptr) : M ptr :=
  do toReturn <- malloc;
  if decide (toReturn = NULL) then ret NULL
  else
    (* data = d, next = NULL *)
    run init_frame toReturn (mkFrame d NULL);
    ret toReturn.

Definition dynstackGetSize (stack : ptr) : M Z :=
  if decide (stack = NULL) then ret 0
  else
    do s <- load_stack stack;
    ret (size s).

Definition dynstackIsEmpty (stack : ptr) : M bool :=
  do n <- dynstackGetSize stack;
  ret (bool_decide (n = 0)).

Definition dynstackPush (stack : ptr) (d : ptr) : M bool :=
  if decide (stack = NULL) then ret false
  else
    do toPush <- dynstackFrameNew d;
    if decide (toPush = NULL) then ret false
    else
      do s <- load_stack stack;
      (* toPush->next = stack->top *)
      run write_frame toPush (fun f => mkFrame (data f) (top s));
      (* stack->top = toPush *)
      run write_stack stack
            (fun s => mkStack toPush (size s) (deleteData s) (printData s));
      (* (stack->size)++ *)
      run write_stack stack
            (fun s => mkStack (top s) (to_uint (size s + 1))
                              (deleteData s) (printData s));
      ret true.

Definition dynstackPeek (stack : ptr) : M ptr :=
  if decide (stack = NULL) then ret NULL
  else
    do s <- load_stack stack;
    if decide (top s = NULL) then ret NULL
    else
      do f <- load_frame (top s);
      ret (data f).

Definition dynstackPop (stack : ptr) : M ptr :=
  if decide (stack = NULL) then ret NULL
  else
    do s <- load_stack stack;
    if decide (top s = NULL) then ret NULL
    else
      let top' := top s in
      do f <- load_frame top';
      let toReturn := data f in
      (* stack->top = stack->top->next *)
      run write_stack stack
            (fun s => mkStack (next f) (size s) (deleteData s) (printData s));
      (* (stack->size)-- *)
      run write_stack stack
            (fun s => mkStack (top s) (to_uint (size s - 1))
                              (deleteData s) (printData s));
      run free_frame top';
      ret toReturn.

(** The loop of [dynstackClear]. *)
Fixpoint clear_loop (fuel : nat) (stack : ptr) : M unit :=
  match fuel with
  | O => out_of_fuel
  | S fuel' =>
      do e <- dynstackIsEmpty stack;
      if e : bool then ret tt
      else
        (* stack->deleteData(dynstackPop(stack)) *)
        do x <- dynstackPop stack;
        do s <- load_stack stack;
        run call (deleteData s) x;
        clear_loop fuel' stack
  end.

Definition dynstackClear (fuel : nat) (stack : ptr) : M unit :=
  if decide (stack = NULL) then ret tt
  else clear_loop fuel stack.

Definition dynstackFree (fuel : nat) (stack : ptr) : M unit :=
  if decide (stack = NULL) then ret tt
  else
    run dynstackClear fuel stack;
    free_stack stack.

Definition dynstackTopToString (stack : ptr) : M text :=
  if decide (stack = NULL) then ret None
  else
    do e <- dynstackIsEmpty stack;
    if e : bool then
      (* the result of malloc is used unchecked *)
      do toReturn <- malloc_text;
      terminate_text toReturn
    else
      do s <- load_stack stack;
      do f <- load_frame (top s);
      do str <- render (printData s) (data f);
      ret (Some str).

(** The loop of [dynstackToString] over the nodes below the top. *)
Fixpoint toString_loop (fuel : nat) (stack : ptr) (cur : ptr)
    (toReturn : text) : M text :=
  match fuel with
  | O => out_of_fuel
  | S fuel' =>
      if decide (cur = NULL) then ret toReturn
      else
        do s <- load_stack stack;
        do f <- load_frame cur;
        do frameStr <- render (printData s) (data f);
        (* the result of realloc is used unchecked *)
        do toReturn <- realloc_text toReturn;
        do toReturn <- strcat toReturn newline;
        do toReturn <- strcat toReturn frameStr;
        toString_loop fuel' stack (next f) toReturn
  end.

Definition dynstackToString (fuel : nat) (stack : ptr) : M text :=
  if decide (stack = NULL) then ret None
  else
    do toReturn <- dynstackTopToString stack;
    do e <- dynstackIsEmpty stack;
    do cur <- (if e : bool then ret NULL
               else
                 do s <- load_stack stack;
                 do f <- load_frame (top s);
                 ret (next f));
    toString_loop fuel stack cur toReturn.

(** The loop of [dynstackMap].  DynStack.h declares the visitor as a function
    taking a pointer to a [DynFrame]; the definition in DynStack.c, which is
    the one embedded here, takes a function of the element and calls it on
    [cur->data]. *)
Fixpoint map_loop (fuel : nat) (func : option effect_fn) (cur : ptr) : M unit :=
  match fuel with
  | O => out_of_fuel
  | S fuel' =>
      if decide (cur = NULL) then ret tt
      else
        do f <- load_frame cur;
        (* func(cur->data) *)
        run call func (data f);
        map_loop fuel' func (next f)
  end.

Definition dynstackMap (fuel : nat) (stack : ptr) (func : option effect_fn)
    : M unit :=
  if decide (stack = NULL) then ret tt
  else
    do e <- dynstackIsEmpty stack;
    if e : bool then ret tt
    else
      do s <- load_stack stack;
      map_loop fuel func (top s).

(** ** Client programs: runs of pushes and of pops *)

Fixpoint pushes (stack : ptr) (ds : list ptr) : M (list bool) :=
  match ds with
  | [] => ret []
  | d :: ds' =>
      do b <- dynstackPush stack d;
      do bs <- pushes stack ds';
      ret (b :: bs)
  end.

Fixpoint pops (stack : ptr) (n : nat) : M (list ptr) :=
  match n with
  | O => ret []
  | S n' =>
      do x <- dynstackPop stack;
      do xs <- pops stack n';
      ret (x :: xs)
  end.

(** A client that pushes and pops in any order, and what it observes: the
    result of each push and the element each pop returns. *)
Inductive move : Type :=
| Push (d : ptr)
| Pop.

Inductive event : Type :=
| Pushed (b : bool)
| Popped (x : ptr).

Fixpoint moves (stack : ptr) (ms : list move) : M (list event) :=
  match ms with
  | [] => ret []
  | Push d :: ms' =>
      do b <- dynstackPush stack d;
      do es <- moves stack ms';
      ret (Pushed b :: es)
  | Pop :: ms' =>
      do x <- dynstackPop stack;
      do es <- moves stack ms';
      ret (Popped x :: es)
  end.

(** The operations a client may apply to a stack it holds. *)
Inductive op : Type :=
| OpPush (d : ptr)
| OpPop
| OpPeek
| OpGetSize
| OpIsEmpty
| OpClear
| OpToString
| OpMap (func : option effect_fn).

Definition run_op (fuel : nat) (stack : ptr) (o : op) : M unit :=
  match o with
  | OpPush d => run dynstackPush stack d; ret tt
  | OpPop => run dynstackPop stack; ret tt
  | OpPeek => run dynstackPeek stack; ret tt
  | OpGetSize => run dynstackGetSize stack; ret tt
  | OpIsEmpty => run dynstackIsEmpty stack; ret tt
  | OpClear => dynstackClear fuel stack
  | OpToString => run dynstackToString fuel stack; ret tt
  | OpMap func => dynstackMap fuel stack func
  end.

(** The traversal needs a visitor: a null function pointer cannot be called. *)
Definition op_defined (o : op) : Prop :=
  match o with
  | OpMap None => False
  | _ => True
  end.

Fixpoint run_ops (fuel : nat) (stack : ptr) (os : list op) : M unit :=
  match os with
  | [] => ret tt
  | o :: os' => run run_op fuel stack o; run_ops fuel stack os'
  end.

(** ** Well-formed memories and the representation of a stack *)

(** The nodes of a chain, from the one [p] points to down to the last: each
    is the pair of its address and of the element it stores. *)
Fixpoint chain (fr : gmap Z DynFrame) (p : ptr) (ns : list (ptr * ptr)) : Prop :=
  match ns with
  | [] => p = NULL
  | n :: ns' =>
      p = n.1 /\ p <> NULL /\
      exists q, fr !! p = Some (mkFrame n.2 q) /\ chain fr q ns'
  end.

(** The allocator has handed out only addresses between [NULL] and [brk]. *)
Definition wf (m : mem) : Prop :=
  0 < brk m /\
  (forall a, is_Some (frames m !! a) -> 0 < a < brk m) /\
  (forall a, is_Some (stacks m !! a) -> 0 < a < brk m).

(** [stack] points to a stack built with [del] and [pr] whose nodes, from the
    top, are [ns]; its [size] field holds their number as an [unsigned int]. *)
Record stack_at (m : mem) (stack : ptr) (del : effect_fn) (pr : print_fn)
    (ns : list (ptr * ptr)) : Prop := mkStackAt {
  at_wf : wf m;
  at_head : exists t,
      stacks m !! stack =
        Some (mkStack t (to_uint (Z.of_nat (length ns))) (Some del) (Some pr)) /\
      chain (frames m) t ns;
  at_nodup : NoDup ns.*1
}.

(** [m'] holds the objects of [m], unchanged, and nothing else. *)
Definition same_objects (m m' : mem) : Prop :=
  frames m' = frames m /\ stacks m' = stacks m /\ brk m' = brk m.

(** The allocator serves the next [n] requests. *)
Definition serves (m : mem) (n : nat) : Prop :=
  forall i, (i < n)%nat -> avail m i = true.

(** The lines of a text: each but the last is followed by a line break. *)
Fixpoint join_lines (ls : list string) : string :=
  match ls with
  | [] => EmptyString
  | l :: ls' =>
      match ls' with
      | [] => l
      | _ :: _ => l +:+ newline +:+ join_lines ls'
      end
  end.

(** The elements of a stack, from the top. *)
Definition elements (ns : list (ptr * ptr)) : list ptr := ns.*2.

(** ** The print conveniences *)

(** [printf] of a text and a line break; a null text has no defined output. *)
Definition printf_line (out : string) (t : text) : M string :=
  match t with
  | Some s => ret (out +:+ s +:+ newline)
  | None => undefined
  end.

(** [free] of a text buffer.  Buffers are not tracked, and [free(NULL)] does
    nothing. *)
Definition free_text (t : text) : M unit := ret tt.

Definition dynstackPrintTop (stack : ptr) (out : string) : M string :=
  if decide (stack = NULL) then ret out
  else
    do toPrint <- dynstackTopToString stack;
    do out' <- printf_line out toPrint;
    run free_text toPrint;
    ret out'.

Definition dynstackPrint (fuel : nat) (stack : ptr) (out : string) : M string :=
  if decide (stack = NULL) then ret out
  else
    do toPrint <- dynstackToString fuel stack;
    do out' <- printf_line out toPrint;
    run free_text toPrint;
    ret out'.

(** ** What a run of pushes leaves when the allocator refuses some *)

(** The elements of [ds] whose push the allocator serves, [av] being its
    answers to the requests to come. *)
Fixpoint accepted (av : nat -> bool) (ds : list ptr) : list ptr :=
  match ds with
  | [] => []
  | d :: ds' =>
      if av 0%nat then d :: accepted (fun i => av (S i)) ds'
      else accepted (fun i => av (S i)) ds'
  end.

(** ** Counting the pushes and the pops of a run *)

(** The pushes that succeeded. *)
Fixpoint count_pushed (es : list event) : nat :=
  match es with
  | [] => 0
  | Pushed true :: es' => S (count_pushed es')
  | _ :: es' => count_pushed es'
  end.

(** The pops that were made. *)
Fixpoint count_popped (es : list event) : nat :=
  match es with
  | [] => 0
  | Popped _ :: es' => S (count_popped es')
  | _ :: es' => count_popped es'
  end.

(** Every pop of the run is made while a node is linked, [n] nodes being
    linked when the run starts. *)
Fixpoint pops_find_nodes (n : nat) (es : list event) : bool :=
  match es with
  | [] => true
  | Pushed true :: es' => pops_find_nodes (S n) es'
  | Pushed false :: es' => pops_find_nodes n es'
  | Popped _ :: es' =>
      match n with
      | O => false
      | S n' => pops_find_nodes n' es'
      end
  end.

(** Two lists of nodes share no address. *)
Definition apart (ns1 ns2 : list (ptr * ptr)) : Prop :=
  forall a, a ∈ ns1.*1 -> a ∉ ns2.*1.

End DynStack.

Arguments mem W : clear implicits.
Arguments op W : clear implicits.
Arguments DynStack W : clear implicits.
Arguments outcome W A : clear implicits.
Arguments M W A : clear implicits.
Arguments effect_fn W : clear implicits.
Arguments print_fn W : clear implicits.
Arguments Done {W A} a m.
Arguments Undefined {W A}.
Arguments OutOfFuel {W A}.

Notation "'do' x <- c1 ; c2" := (bind c1 (fun x => c2))
  (at level 10, x name, c1 at level 100, c2 at level 200,
   format "'[v' 'do'  x  <-  c1 ; '/' c2 ']'").
Notation "'run' c1 ; c2" := (bind c1 (fun _ => c2))
  (at level 10, c1 at level 100, c2 at level 200,
   format "'[v' 'run'  c1 ; '/' c2 ']'").

(** ** A client: elements are numbers, the world is the log of the calls

    The releaser and the visitor append the pointer they are given to the
    log; the renderer prints the pointer as a decimal number. *)

Module Client.

Definition log : Type := list ptr.

Definition record : effect_fn log := fun x w => w ++ [x].

Definition show : print_fn log := fun _ x => pretty x.

(** A memory with nothing allocated and an allocator that never refuses. *)
Definition pristine : mem log := mkMem ∅ ∅ 1 (fun _ => true) [].

(** [pristine] once a stack has been built in it: the stack is at address [1]. *)
Definition built : mem log :=
  mkMem ∅ {[ 1 := mkStack NULL 0 (Some record) (Some show) ]} 2
        (fun _ => true) [].

(** [built] once [100] has been pushed: one node, at address [2]. *)
Definition one : mem log :=
  mkMem {[ 2 := mkFrame 100 NULL ]}
        {[ 1 := mkStack 2 1 (Some record) (Some show) ]} 3
        (fun _ => true) [].

(** [built] once [10], [20] and [30] have been pushed. *)
Definition three : mem log :=
  mkMem {[ 2 := mkFrame 10 NULL; 3 := mkFrame 20 2; 4 := mkFrame 30 3 ]}
        {[ 1 := mkStack 4 3 (Some record) (Some show) ]} 5
        (fun _ => true) [].

(** [three] with an allocator that refuses every request. *)
Definition exhausted : mem log :=
  mkMem (frames three) (stacks three) (brk three) (fun _ => false) [].

(** A session: push [1], [2], [3]; ask for the size and the top; pop three
    times, and once more; push [10] and [20]; render the stack. *)
Definition session : M log (Z * ptr * list ptr * ptr * text) :=
  run pushes 1 [1; 2; 3];
  do n <- dynstackGetSize 1;
  do t <- dynstackPeek 1;
  do xs <- pops 1 3;
  do x <- dynstackPop 1;
  run pushes 1 [10; 20];
  do s <- dynstackToString 2 1;
  ret (n, t, xs, x, s).

(** The memory an operation ends in. *)
Definition after {A} (o : outcome log A) : mem log :=
  match o with
  | Done _ m => m
  | _ => pristine
  end.

(** As many pushes as it takes to bring the count to [UINT_MAX], and to wrap
    it around. *)
Definition to_the_brim : nat := Z.to_nat UINT_MAX.
Definition once_around : nat := Z.to_nat UINT_RANGE.

(** Two stacks side by side, at addresses [1] and [2], of one node each. *)
Definition side_by_side : mem log :=
  mkMem {[ 3 := mkFrame 10 NULL; 4 := mkFrame 20 NULL ]}
        {[ 1 := mkStack 3 1 (Some record) (Some show);
           2 := mkStack 4 1 (Some record) (Some show) ]} 5
        (fun _ => true) [].

(** [built] with an allocator that refuses every request. *)
Definition drained : mem log :=
  mkMem (frames built) (stacks built) (brk built) (fun _ => false) [].

(** [built] with an allocator that serves every other request, the first
    included. *)
Definition stingy : mem log :=
  mkMem (frames built) (stacks built) (brk built) Nat.even [].

End Client.

(** * Properties *)

(** ** Unsigned arithmetic *)

Lemma UINT_RANGE_eq : UINT_RANGE = 4294967296.
Proof. reflexivity. Qed.

Lemma to_uint_range z : 0 <= to_uint z < UINT_RANGE.
Proof. unfold to_uint. apply Z.mod_pos_bound. reflexivity. Qed.

Lemma to_uint_small z : 0 <= z < UINT_RANGE -> to_uint z = z.
Proof. intros H. unfold to_uint. by apply Z.mod_small. Qed.

Lemma to_uint_succ z : to_uint (to_uint z + 1) = to_uint (z + 1).
Proof. unfold to_uint. by rewrite Zplus_mod_idemp_l. Qed.

Lemma to_uint_pred z : to_uint (to_uint z - 1) = to_uint (z - 1).
Proof. unfold to_uint. by rewrite Zminus_mod_idemp_l. Qed.

Lemma to_uint_idemp z : to_uint (to_uint z) = to_uint z.
Proof. unfold to_uint. by rewrite Zmod_mod. Qed.

Ltac unfold_ops :=
  unfold dynstackPush, dynstackPop, dynstackPeek, dynstackGetSize,
    dynstackIsEmpty, dynstackFrameNew, dynstackNew, dynstackTopToString,
    malloc, request, answered, load_stack, load_frame, write_stack, write_frame,
    init_stack, init_frame, free_frame, free_stack, call, render,
    malloc_text, realloc_text, terminate_text, strcat,
    set_frames, set_stacks, set_world, bind, ret, undefined; cbn.

Ltac mred :=
  repeat first
    [ progress cbn
    | rewrite decide_False by done
    | rewrite decide_True by done
    | rewrite lookup_insert_eq ].

Section Proofs.

Context {W : Type}.
Implicit Types (m : mem W) (fr : gmap Z DynFrame) (ns : list (ptr * ptr)).
Implicit Types (p stack a d : ptr) (del : effect_fn W) (pr : print_fn W).

(** ** Chains *)

Lemma chain_null fr ns : chain fr NULL ns -> ns = [].
Proof. destruct ns as [|n ns]; [done|]. intros (_ & Hn & _). done. Qed.

Lemma chain_nil_iff fr p ns : chain fr p ns -> (p = NULL <-> ns = []).
Proof.
  destruct ns as [|n ns]; simpl.
  - intros ->. done.
  - intros (_ & Hn & _). split; [done | discriminate].
Qed.

Lemma chain_functional fr p ns1 ns2 :
  chain fr p ns1 -> chain fr p ns2 -> ns1 = ns2.
Proof.
  revert p ns2. induction ns1 as [|[a d] ns1 IH]; intros p [|[a' d'] ns2]; simpl.
  - done.
  - intros -> (_ & Hn & _). done.
  - intros (_ & Hn & _) ->. done.
  - intros (-> & _ & q & Hq & Hc) (Ha & _ & q' & Hq' & Hc').
    rewrite Hq in Hq'. simplify_eq. f_equal. by eapply IH.
Qed.

Lemma chain_allocated fr p ns a :
  chain fr p ns -> a ∈ ns.*1 -> is_Some (fr !! a).
Proof.
  revert p. induction ns as [|n ns IH]; intros p; simpl.
  - intros _ Ha. by apply elem_of_nil in Ha.
  - intros (-> & _ & q & Hq & Hc) Ha. apply elem_of_cons in Ha as [->|Ha].
    + eauto.
    + by eapply IH.
Qed.

(** Writing to an address outside a chain leaves the chain as it is. *)
Lemma chain_insert_other fr p ns a f :
  a ∉ ns.*1 -> chain fr p ns -> chain (<[a:=f]> fr) p ns.
Proof.
  revert p. induction ns as [|n ns IH]; intros p; simpl; [done|].
  intros Ha (-> & Hn & q & Hq & Hc). apply not_elem_of_cons in Ha as [Hne Ha].
  split_and!; [done..|]. exists q. split; [|by apply IH].
  by rewrite lookup_insert_ne.
Qed.

(** Freeing an address outside a chain leaves the chain as it is. *)
Lemma chain_delete_other fr p ns a :
  a ∉ ns.*1 -> chain fr p ns -> chain (delete a fr) p ns.
Proof.
  revert p. induction ns as [|n ns IH]; intros p; simpl; [done|].
  intros Ha (-> & Hn & q & Hq & Hc). apply not_elem_of_cons in Ha as [Hne Ha].
  split_and!; [done..|]. exists q. split; [|by apply IH].
  by rewrite lookup_delete_ne.
Qed.

Lemma chain_fresh fr p ns a :
  fr !! a = None -> chain fr p ns -> a ∉ ns.*1.
Proof.
  intros Hnone Hc Ha. destruct (chain_allocated _ _ _ _ Hc Ha) as [f Hf].
  congruence.
Qed.

(** ** One operation on a well-formed stack *)

Lemma stack_at_nonnull m stack del pr ns :
  stack_at m stack del pr ns -> stack <> NULL.
Proof.
  intros [(_ & _ & Hs) (t & Ht & _) _] ->.
  destruct (Hs NULL) as [? _]; [by eauto | done].
Qed.

Lemma dynstackGetSize_at m stack del pr ns :
  stack_at m stack del pr ns ->
  dynstackGetSize stack m = Done (to_uint (Z.of_nat (length ns))) m.
Proof.
  intros H. pose proof (stack_at_nonnull _ _ _ _ _ H) as Hnn.
  destruct H as [_ (t & Ht & _) _]. unfold_ops.
  rewrite decide_False by done. by rewrite Ht.
Qed.

Lemma size_cons {A} (x : A) (l : list A) :
  to_uint (to_uint (Z.of_nat (length l)) + 1) = to_uint (Z.of_nat (length (x :: l))).
Proof. rewrite to_uint_succ. f_equal. cbn [length]. lia. Qed.

Lemma dynstackPush_served m stack del pr ns d :
  stack_at m stack del pr ns ->
  avail m 0%nat = true ->
  exists m',
    dynstackPush stack d m = Done true m' /\
    stack_at m' stack del pr ((brk m, d) :: ns) /\
    brk m' = brk m + 1 /\
    avail m' = (fun n => avail m (S n)) /\
    world m' = world m.
Proof.
  intros H Hav. pose proof (stack_at_nonnull _ _ _ _ _ H) as Hnn.
  destruct H as [(Hbrk & Hfr & Hst) (t & Ht & Hc) Hnd].
  assert (Hfresh : frames m !! brk m = None).
  { destruct (frames m !! brk m) eqn:E; [|done].
    destruct (Hfr (brk m)); [by eauto | lia]. }
  assert (Hbn : brk m <> NULL) by (unfold NULL; lia).
  eexists. split.
  { unfold_ops. rewrite decide_False by done. rewrite Hav. cbn.
    rewrite decide_False by done. rewrite decide_False by done. cbn.
    rewrite decide_False by done. cbn. rewrite Ht. cbn.
    rewrite lookup_insert_eq. cbn. rewrite Ht. cbn. rewrite lookup_insert_eq.
    cbn. reflexivity. }
  cbn [brk avail world]. split_and!; try done.
  constructor; cbn [frames stacks brk].
  - unfold wf; cbn. split_and!; [lia | |].
    + intros a [f Hf]. rewrite insert_insert_eq in Hf.
      destruct (decide (a = brk m)) as [->|Hne]; [lia|].
      rewrite lookup_insert_ne in Hf by done.
      destruct (Hfr a); [by eauto | lia].
    + intros a [f Hf]. rewrite insert_insert_eq in Hf.
      destruct (decide (a = stack)) as [->|Hne].
      * destruct (Hst stack); [by eauto | lia].
      * rewrite lookup_insert_ne in Hf by done.
        destruct (Hst a); [by eauto | lia].
  - eexists. split.
    + rewrite insert_insert_eq, lookup_insert_eq.
      by rewrite (size_cons (brk m, d)).
    + cbn. split_and!; [done..|]. exists t. rewrite insert_insert_eq.
      split; [by rewrite lookup_insert_eq|].
      apply chain_insert_other; [|done]. by eapply chain_fresh.
  - cbn. apply NoDup_cons. split; [|done]. by eapply chain_fresh.
Qed.


Lemma dynstackPush_absent m d : dynstackPush NULL d m = Done false m.
Proof. reflexivity. Qed.

Lemma dynstackPush_refused m stack d :
  stack <> NULL -> avail m 0%nat = false ->
  dynstackPush stack d m = Done false (answered m).
Proof.
  intros Hnn Hav. unfold_ops. rewrite decide_False by done. by rewrite Hav.
Qed.

Lemma dynstackPush_true m stack d m' :
  dynstackPush stack d m = Done true m' -> avail m 0%nat = true.
Proof.
  unfold_ops. destruct (decide (stack = NULL)); [done|].
  destruct (avail m 0%nat); [done|]. cbn. done.
Qed.

Lemma dynstackIsEmpty_at m stack del pr ns :
  stack_at m stack del pr ns ->
  dynstackIsEmpty stack m =
    Done (bool_decide (to_uint (Z.of_nat (length ns)) = 0)) m.
Proof.
  intros H. unfold dynstackIsEmpty, bind, ret.
  by rewrite (dynstackGetSize_at _ _ _ _ _ H).
Qed.

Lemma dynstackPop_absent m : dynstackPop NULL m = Done NULL m.
Proof. reflexivity. Qed.

Lemma dynstackPop_nil m stack del pr :
  stack_at m stack del pr [] -> dynstackPop stack m = Done NULL m.
Proof.
  intros H. pose proof (stack_at_nonnull _ _ _ _ _ H) as Hnn.
  destruct H as [_ (t & Ht & Hc) _]. cbn in Hc. subst t.
  unfold_ops. rewrite decide_False by done. rewrite Ht. cbn.
  by rewrite decide_True by done.
Qed.

Lemma dynstackPop_cons m stack del pr a d ns :
  stack_at m stack del pr ((a, d) :: ns) ->
  exists m',
    dynstackPop stack m = Done d m' /\
    stack_at m' stack del pr ns /\
    frames m' = delete a (frames m) /\
    brk m' = brk m /\
    avail m' = avail m /\
    world m' = world m.
Proof.
  intros H. pose proof (stack_at_nonnull _ _ _ _ _ H) as Hnn.
  destruct H as [(Hbrk & Hfr & Hst) (t & Ht & Hc) Hnd].
  destruct Hc as (Hta & Htn & q & Hq & Hc). cbn in Hta, Hq. subst t.
  apply NoDup_cons in Hnd as [Hnotin Hnd].
  eexists. split.
  { unfold_ops. rewrite decide_False by done. rewrite Ht. cbn.
    rewrite decide_False by done. rewrite Hq. cbn. rewrite Ht. cbn.
    rewrite lookup_insert_eq. cbn. rewrite Hq. cbn. reflexivity. }
  cbn [frames brk avail world]. split_and!; try done.
  constructor; unfold wf; cbn [frames stacks brk].
  - split_and!; [done | |].
    + intros a' [f Hf]. apply lookup_delete_Some in Hf as [_ Hf]. eauto.
    + intros a' [f Hf]. rewrite insert_insert_eq in Hf.
      destruct (decide (a' = stack)) as [->|Hne]; [by eauto|].
      rewrite lookup_insert_ne in Hf by done. eauto.
  - exists q. split.
    + rewrite insert_insert_eq, lookup_insert_eq.
      rewrite to_uint_pred. do 3 f_equal. lia.
    + by apply chain_delete_other.
  - done.
Qed.

Lemma dynstackPeek_absent m : dynstackPeek NULL m = Done NULL m.
Proof. reflexivity. Qed.

Lemma dynstackPeek_at m stack del pr ns :
  stack_at m stack del pr ns ->
  dynstackPeek stack m = Done (default NULL (head (elements ns))) m.
Proof.
  intros H. pose proof (stack_at_nonnull _ _ _ _ _ H) as Hnn.
  destruct H as [_ (t & Ht & Hc) _]. unfold_ops.
  rewrite decide_False by done. rewrite Ht. cbn.
  destruct ns as [|[a d] ns]; cbn in Hc.
  - subst t. by rewrite decide_True by done.
  - destruct Hc as (-> & Hn & q & Hq & _). rewrite decide_False by done.
    by rewrite Hq.
Qed.

Lemma serves_S m n : serves m (S n) -> avail m 0%nat = true.
Proof. intros H. apply H. lia. Qed.

Lemma serves_tail m m' n :
  avail m' = (fun i => avail m (S i)) -> serves m (S n) -> serves m' n.
Proof. intros Hav H i Hi. rewrite Hav. apply H. lia. Qed.

(** ** Runs of pushes and of pops *)

Lemma pushes_served m stack del pr ns ds :
  stack_at m stack del pr ns ->
  serves m (length ds) ->
  exists m' ns',
    pushes stack ds m = Done (replicate (length ds) true) m' /\
    stack_at m' stack del pr (ns' ++ ns) /\
    elements ns' = reverse ds /\
    avail m' = (fun i => avail m (length ds + i)%nat) /\
    world m' = world m.
Proof.
  revert m ns. induction ds as [|d ds IH]; intros m ns H Hs.
  - exists m, []. by split_and!.
  - destruct (dynstackPush_served _ _ _ _ _ d H (serves_S _ _ Hs))
      as (m1 & Hp & H1 & _ & Hav1 & Hw1).
    destruct (IH _ _ H1 (serves_tail _ _ _ Hav1 Hs))
      as (m2 & ns2 & Hps & H2 & Hel & Hav2 & Hw2).
    exists m2, (ns2 ++ [(brk m, d)]). split_and!.
    + cbn. unfold bind, ret. by rewrite Hp, Hps.
    + by rewrite <- app_assoc.
    + unfold elements in *. rewrite fmap_app, Hel, reverse_cons. done.
    + rewrite Hav2, Hav1. done.
    + congruence.
Qed.

Lemma pushes_true m stack ds m' :
  stack <> NULL ->
  pushes stack ds m = Done (replicate (length ds) true) m' ->
  serves m (length ds).
Proof.
  intros Hnn. revert m. induction ds as [|d ds IH]; intros m.
  - intros _ i Hi. cbn in Hi. lia.
  - cbn. unfold bind, ret.
    destruct (dynstackPush stack d m) as [b m1| |] eqn:Hp; [|intros [=]..].
    destruct (pushes stack ds m1) as [bs m2| |] eqn:Hps; [|intros [=]..].
    intros [= -> -> ->].
    pose proof (dynstackPush_true _ _ _ _ Hp) as Hav.
    assert (Hav1 : avail m1 = (fun i => avail m (S i))).
    { revert Hp. unfold_ops. rewrite decide_False by done. rewrite Hav.
      destruct (decide (brk m = NULL)) as [e|e];
        destruct (stacks m !! stack) eqn:Hs;
        repeat (mred; rewrite ?Hs); by intros [= <-]. }
    specialize (IH _ Hps). intros [|i] Hi; [done|].
    cbn in Hi. specialize (IH i ltac:(lia)). by rewrite Hav1 in IH.
Qed.

Lemma pops_at m stack del pr ns1 ns2 :
  stack_at m stack del pr (ns1 ++ ns2) ->
  exists m',
    pops stack (length ns1) m = Done (elements ns1) m' /\
    stack_at m' stack del pr ns2 /\
    brk m' = brk m /\ avail m' = avail m /\ world m' = world m.
Proof.
  revert m. induction ns1 as [|[a d] ns1 IH]; intros m H.
  - exists m. by split_and!.
  - destruct (dynstackPop_cons _ _ _ _ _ _ _ H) as (m1 & Hp & H1 & _ & Hb & Hav & Hw).
    destruct (IH _ H1) as (m2 & Hps & H2 & Hb2 & Hav2 & Hw2).
    exists m2. split_and!; [|done|congruence..].
    cbn. unfold bind, ret. by rewrite Hp, Hps.
Qed.

(** ** Construction *)

Lemma dynstackNew_missing m (deleteFunc : option (effect_fn W))
    (printFunc : option (print_fn W)) :
  deleteFunc = None \/ printFunc = None ->
  dynstackNew deleteFunc printFunc m = Done NULL m.
Proof.
  unfold dynstackNew. intros [-> | ->]; [done|].
  by destruct deleteFunc.
Qed.

Lemma dynstackNew_refused m del pr :
  avail m 0%nat = false ->
  dynstackNew (Some del) (Some pr) m = Done NULL (answered m).
Proof. intros Hav. unfold_ops. by rewrite Hav. Qed.

Lemma dynstackNew_served m del pr :
  wf m -> avail m 0%nat = true ->
  exists m',
    dynstackNew (Some del) (Some pr) m = Done (brk m) m' /\
    stack_at m' (brk m) del pr [] /\
    frames m' = frames m /\
    avail m' = (fun i => avail m (S i)) /\
    world m' = world m.
Proof.
  intros (Hbrk & Hfr & Hst) Hav.
  assert (Hbn : brk m <> NULL) by (unfold NULL; lia).
  eexists. split.
  { unfold_ops. rewrite Hav. mred. reflexivity. }
  cbn [frames avail world]. split_and!; try done.
  constructor; unfold wf; cbn [frames stacks brk].
  - split_and!; [lia | |].
    + intros a Ha. specialize (Hfr a Ha). lia.
    + intros a [s Hs]. destruct (decide (a = brk m)) as [->|Hne]; [lia|].
      rewrite lookup_insert_ne in Hs by done.
      destruct (Hst a); [by eauto | lia].
  - exists NULL. by rewrite lookup_insert_eq.
  - constructor.
Qed.

(** ** The world and the allocator's answers do not matter to the shape *)

Lemma stack_at_set_world m stack del pr ns (g : W -> W) :
  stack_at m stack del pr ns -> stack_at (set_world g m) stack del pr ns.
Proof. intros [Hwf Hh Hnd]. by constructor. Qed.

Lemma stack_at_answered m stack del pr ns :
  stack_at m stack del pr ns -> stack_at (answered m) stack del pr ns.
Proof. intros [Hwf Hh Hnd]. by constructor. Qed.

(** ** Clearing *)

(** The loop of [dynstackClear] pops as many nodes as the [size] field says,
    releasing the element of each. *)
Lemma clear_loop_at m stack del pr ns1 ns2 fuel :
  stack_at m stack del pr (ns1 ++ ns2) ->
  to_uint (Z.of_nat (length (ns1 ++ ns2))) = Z.of_nat (length ns1) ->
  (length ns1 < fuel)%nat ->
  exists m',
    clear_loop fuel stack m = Done tt m' /\
    stack_at m' stack del pr ns2 /\
    frames m' = foldl (fun fr a => delete a fr) (frames m) ns1.*1 /\
    brk m' = brk m /\
    avail m' = avail m /\
    world m' = foldl (fun w d => del d w) (world m) (elements ns1).
Proof.
  revert m fuel. induction ns1 as [|[a d] ns1 IH]; intros m fuel H Hsz Hfuel.
  - destruct fuel as [|fuel]; [cbn in Hfuel; lia|].
    exists m. split_and!; try done.
    cbn [clear_loop]. unfold bind, ret.
    rewrite (dynstackIsEmpty_at _ _ _ _ _ H), Hsz. done.
  - destruct fuel as [|fuel]; [lia|].
    destruct (dynstackPop_cons _ _ _ _ _ _ _ H)
      as (m1 & Hp & H1 & Hf1 & Hb1 & Hav1 & Hw1).
    assert (Hsz1 : to_uint (Z.of_nat (length (ns1 ++ ns2)))
                   = Z.of_nat (length ns1)).
    { pose proof (to_uint_range (Z.of_nat (length (((a, d) :: ns1) ++ ns2)))).
      transitivity
        (to_uint (to_uint (Z.of_nat (length (((a, d) :: ns1) ++ ns2))) - 1)).
      { rewrite to_uint_pred. f_equal. cbn [length app]. lia. }
      rewrite Hsz in *. rewrite to_uint_small; cbn [length] in *; lia. }
    pose proof (stack_at_set_world _ _ _ _ _ (del d) H1) as H1'.
    destruct (IH (set_world (del d) m1) fuel H1' Hsz1 ltac:(cbn in Hfuel; lia))
      as (m2 & Hc & H2 & Hf2 & Hb2 & Hav2 & Hw2).
    exists m2. split_and!; try done.
    + cbn [clear_loop]. unfold bind, ret.
      rewrite (dynstackIsEmpty_at _ _ _ _ _ H), Hsz.
      rewrite bool_decide_eq_false_2 by (cbn [length]; lia).
      rewrite Hp. destruct H1 as [_ (t & Ht & _) _].
      unfold load_stack. rewrite Ht. cbn. exact Hc.
    + rewrite Hf2. cbn. by rewrite Hf1.
    + rewrite Hb2. done.
    + rewrite Hav2. done.
    + rewrite Hw2. cbn. by rewrite Hw1.
Qed.

(** ** Rendering *)

Lemma append_cons (c : ascii) (s1 s2 : string) :
  String c s1 +:+ s2 = String c (s1 +:+ s2).
Proof. reflexivity. Qed.

Lemma append_assoc (s1 s2 s3 : string) : (s1 +:+ s2) +:+ s3 = s1 +:+ s2 +:+ s3.
Proof.
  induction s1 as [|c s1 IH]; [done|]. by rewrite !append_cons, IH.
Qed.

Lemma append_empty_r (s : string) : s +:+ EmptyString = s.
Proof. induction s as [|c s IH]; [done|]. by rewrite append_cons, IH. Qed.

Lemma join_lines_cons (l : string) (ls : list string) :
  join_lines (l :: ls) = l +:+ foldr (fun x r => newline +:+ x +:+ r) EmptyString ls.
Proof.
  revert l. induction ls as [|x ls IH]; intros l.
  - cbn. by rewrite append_empty_r.
  - change (join_lines (l :: x :: ls))
      with (l +:+ newline +:+ join_lines (x :: ls)).
    by rewrite IH.
Qed.

Lemma dynstackTopToString_absent m : dynstackTopToString NULL m = Done None m.
Proof. reflexivity. Qed.

Lemma dynstackTopToString_zero m stack del pr ns :
  stack_at m stack del pr ns ->
  to_uint (Z.of_nat (length ns)) = 0 ->
  dynstackTopToString stack m =
    if avail m 0%nat then Done (Some EmptyString) (answered m) else Undefined.
Proof.
  intros H Hsz. pose proof (stack_at_nonnull _ _ _ _ _ H) as Hnn.
  unfold dynstackTopToString, bind. rewrite decide_False by done.
  rewrite (dynstackIsEmpty_at _ _ _ _ _ H), Hsz.
  rewrite bool_decide_eq_true_2 by done.
  unfold_ops. by destruct (avail m 0%nat).
Qed.

Lemma dynstackTopToString_cons m stack del pr a d ns :
  stack_at m stack del pr ((a, d) :: ns) ->
  to_uint (Z.of_nat (length ((a, d) :: ns))) <> 0 ->
  dynstackTopToString stack m = Done (Some (pr (world m) d)) m.
Proof.
  intros H Hsz. pose proof (stack_at_nonnull _ _ _ _ _ H) as Hnn.
  unfold dynstackTopToString, bind. rewrite decide_False by done.
  rewrite (dynstackIsEmpty_at _ _ _ _ _ H).
  rewrite bool_decide_eq_false_2 by done.
  destruct H as [_ (t & Ht & Hc) _]. destruct Hc as (-> & _ & q & Hq & _).
  cbn [fst snd] in *. unfold_ops. rewrite Ht. cbn. by rewrite Hq.
Qed.

(** The loop of [dynstackToString] appends a line break and the text of the
    element for each node of the chain it walks. *)
Lemma toString_loop_chain m stack s pr cur ns fuel acc :
  stacks m !! stack = Some s ->
  printData s = Some pr ->
  chain (frames m) cur ns ->
  serves m (length ns) ->
  (length ns < fuel)%nat ->
  exists m',
    toString_loop fuel stack cur (Some acc) m =
      Done (Some (acc +:+ foldr (fun x r => newline +:+ x +:+ r) EmptyString
                              (pr (world m) <$> elements ns))) m' /\
    frames m' = frames m /\ stacks m' = stacks m /\ brk m' = brk m /\
    world m' = world m /\
    (forall i, avail m' i = avail m (length ns + i)%nat).
Proof.
  intros Hs Hpr. revert m fuel cur acc Hs.
  induction ns as [|[a d] ns IH]; intros m fuel cur acc Hs Hc Hsv Hfuel;
    (destruct fuel as [|fuel]; [cbn in Hfuel; lia|]).
  - cbn in Hc. subst cur. exists m. split_and!; try done.
    cbn. by rewrite append_empty_r.
  - destruct Hc as (-> & Hn & q & Hq & Hc). cbn [fst snd] in *.
    destruct (IH (answered m) fuel q ((acc +:+ newline) +:+ pr (world m) d))
      as (m' & Hl & Hf & Hst & Hb & Hw & Hav); try done.
    { intros i Hi. cbn. apply Hsv. cbn. lia. }
    { cbn in Hfuel. lia. }
    exists m'. split_and!; try done.
    cbn [toString_loop]. rewrite decide_False by done.
    unfold_ops. rewrite Hs. cbn. rewrite Hq. cbn. rewrite Hpr. cbn.
    rewrite (Hsv 0%nat) by (cbn; lia). cbn.
    change (world (answered m)) with (world m) in Hl. rewrite Hl. do 2 f_equal.
    cbn [elements fmap list_fmap foldr snd]. by rewrite !append_assoc.
Qed.

(** ** Traversal *)

Lemma map_loop_chain m (func : effect_fn W) cur ns fuel :
  chain (frames m) cur ns ->
  (length ns < fuel)%nat ->
  map_loop fuel (Some func) cur m =
    Done tt (set_world (fun w => foldl (fun w d => func d w) w (elements ns)) m).
Proof.
  revert m fuel cur. induction ns as [|[a d] ns IH]; intros m fuel cur Hc Hfuel;
    (destruct fuel as [|fuel]; [cbn in Hfuel; lia|]).
  - cbn in Hc. subst cur. by destruct m.
  - destruct Hc as (-> & Hn & q & Hq & Hc). cbn [fst snd] in *.
    cbn [map_loop]. rewrite decide_False by done.
    unfold_ops. rewrite Hq. cbn.
    rewrite (IH _ fuel q) by (cbn in *; first [done | lia]). done.
Qed.

Lemma dynstackMap_absent m fuel (func : option (effect_fn W)) :
  dynstackMap fuel NULL func m = Done tt m.
Proof. reflexivity. Qed.

Lemma dynstackMap_zero m stack del pr ns fuel (func : option (effect_fn W)) :
  stack_at m stack del pr ns ->
  to_uint (Z.of_nat (length ns)) = 0 ->
  dynstackMap fuel stack func m = Done tt m.
Proof.
  intros H Hsz. pose proof (stack_at_nonnull _ _ _ _ _ H) as Hnn.
  unfold dynstackMap, bind. rewrite decide_False by done.
  by rewrite (dynstackIsEmpty_at _ _ _ _ _ H), Hsz.
Qed.

Lemma dynstackMap_at m stack del pr ns fuel (func : effect_fn W) :
  stack_at m stack del pr ns ->
  to_uint (Z.of_nat (length ns)) <> 0 ->
  (length ns < fuel)%nat ->
  dynstackMap fuel stack (Some func) m =
    Done tt (set_world (fun w => foldl (fun w d => func d w) w (elements ns)) m).
Proof.
  intros H Hsz Hfuel. pose proof (stack_at_nonnull _ _ _ _ _ H) as Hnn.
  unfold dynstackMap, bind. rewrite decide_False by done.
  rewrite (dynstackIsEmpty_at _ _ _ _ _ H).
  rewrite bool_decide_eq_false_2 by done.
  destruct H as [_ (t & Ht & Hc) _]. unfold load_stack. rewrite Ht.
  by apply map_loop_chain.
Qed.

(** ** Rendering the whole stack *)

Lemma dynstackToString_absent m fuel : dynstackToString fuel NULL m = Done None m.
Proof. reflexivity. Qed.

(** With a count of zero only the empty text of the top is produced. *)
Lemma dynstackToString_zero m stack del pr ns fuel :
  stack_at m stack del pr ns ->
  to_uint (Z.of_nat (length ns)) = 0 ->
  avail m 0%nat = true ->
  (0 < fuel)%nat ->
  dynstackToString fuel stack m = Done (Some EmptyString) (answered m).
Proof.
  intros H Hsz Hav Hfuel. pose proof (stack_at_nonnull _ _ _ _ _ H) as Hnn.
  unfold dynstackToString, bind. rewrite decide_False by done.
  rewrite (dynstackTopToString_zero _ _ _ _ _ H) by done. rewrite Hav.
  rewrite (dynstackIsEmpty_at _ _ _ _ _ (stack_at_answered _ _ _ _ _ H)), Hsz.
  rewrite bool_decide_eq_true_2 by done. unfold ret.
  destruct fuel as [|fuel]; [lia|]. done.
Qed.

Lemma dynstackToString_nil m stack del pr fuel :
  stack_at m stack del pr [] ->
  avail m 0%nat = true ->
  (0 < fuel)%nat ->
  dynstackToString fuel stack m = Done (Some EmptyString) (answered m).
Proof. intros H. by apply (dynstackToString_zero _ _ _ _ _ _ H). Qed.

Lemma dynstackToString_cons m stack del pr a d ns fuel :
  stack_at m stack del pr ((a, d) :: ns) ->
  to_uint (Z.of_nat (length ((a, d) :: ns))) <> 0 ->
  serves m (length ns) ->
  (length ns < fuel)%nat ->
  exists m',
    dynstackToString fuel stack m =
      Done (Some (join_lines (pr (world m) <$> elements ((a, d) :: ns)))) m' /\
    frames m' = frames m /\ stacks m' = stacks m /\ brk m' = brk m /\
    world m' = world m /\
    (forall i, avail m' i = avail m (length ns + i)%nat).
Proof.
  intros H Hsz Hsv Hfuel. pose proof (stack_at_nonnull _ _ _ _ _ H) as Hnn.
  pose proof H as [_ (t & Ht & Hc) _].
  destruct Hc as (-> & _ & q & Hq & Hc). cbn [fst snd] in *.
  destruct (toString_loop_chain m stack _ pr q ns fuel (pr (world m) d) Ht)
    as (m' & Hl & Hrest); try done.
  exists m'. split; [|done].
  unfold dynstackToString, bind. rewrite decide_False by done.
  rewrite (dynstackTopToString_cons _ _ _ _ _ _ _ H) by done.
  rewrite (dynstackIsEmpty_at _ _ _ _ _ H).
  rewrite bool_decide_eq_false_2 by done.
  unfold load_stack, load_frame, ret. rewrite Ht. cbn [top]. rewrite Hq.
  cbn [next]. rewrite Hl. cbn [elements fmap list_fmap snd].
  by rewrite join_lines_cons.
Qed.

(** ** Operations that leave every object as it is *)

Lemma bind_Done {A B} (c : M W A) (k : A -> M W B) m b m' :
  bind c k m = Done b m' ->
  exists x m1, c m = Done x m1 /\ k x m1 = Done b m'.
Proof. unfold bind. destruct (c m) as [x m1| |]; [eauto | done..]. Qed.

Lemma same_objects_refl m : same_objects m m.
Proof. done. Qed.

Lemma same_objects_trans m1 m2 m3 :
  same_objects m1 m2 -> same_objects m2 m3 -> same_objects m1 m3.
Proof. intros (? & ? & ?) (? & ? & ?). unfold same_objects. split_and!; congruence. Qed.

Lemma stack_at_same_objects m m' stack del pr ns :
  same_objects m m' -> stack_at m stack del pr ns -> stack_at m' stack del pr ns.
Proof.
  intros (Hf & Hs & Hb) [Hwf Hh Hnd]. constructor; [|by rewrite Hf, Hs|done].
  unfold wf. by rewrite Hf, Hs, Hb.
Qed.

Lemma dynstackGetSize_same m stack n m' :
  dynstackGetSize stack m = Done n m' -> m' = m.
Proof.
  unfold_ops. destruct (decide (stack = NULL)); [by intros [= _ <-]|].
  destruct (stacks m !! stack); [by intros [= _ <-] | done].
Qed.

Lemma dynstackIsEmpty_same m stack b m' :
  dynstackIsEmpty stack m = Done b m' -> m' = m.
Proof.
  unfold dynstackIsEmpty. intros (n & m1 & Hn & [= _ <-])%bind_Done.
  by eapply dynstackGetSize_same.
Qed.

Lemma dynstackPeek_same m stack x m' :
  dynstackPeek stack m = Done x m' -> m' = m.
Proof.
  unfold_ops. destruct (decide (stack = NULL)); [by intros [= _ <-]|].
  destruct (stacks m !! stack) as [s|]; [|done]. cbn.
  destruct (decide (top s = NULL)); [by intros [= _ <-]|]. cbn.
  destruct (frames m !! top s); [by intros [= _ <-] | done].
Qed.

Lemma dynstackTopToString_same m stack r m' :
  dynstackTopToString stack m = Done r m' -> same_objects m m'.
Proof.
  unfold dynstackTopToString.
  destruct (decide (stack = NULL)); [by intros [= _ <-]|].
  intros ([] & m1 & He & H)%bind_Done;
    apply dynstackIsEmpty_same in He as ->; revert H; unfold_ops.
  - destruct (avail m 0%nat); [by intros [= _ <-] | done].
  - destruct (stacks m !! stack) as [s|]; [|done]. cbn.
    destruct (frames m !! top s); [|done]. cbn.
    destruct (printData s); [by intros [= _ <-] | done].
Qed.

Lemma toString_loop_same fuel stack cur acc m r m' :
  toString_loop fuel stack cur acc m = Done r m' -> same_objects m m'.
Proof.
  revert cur acc m. induction fuel as [|fuel IH]; intros cur acc m; [done|].
  cbn [toString_loop]. destruct (decide (cur = NULL)); [by intros [= _ <-]|].
  unfold_ops. destruct (stacks m !! stack) as [s|]; [|done]. cbn.
  destruct (frames m !! cur) as [f|]; [|done]. cbn.
  destruct (printData s) as [g|]; [|done]. cbn.
  destruct (avail m 0%nat), acc as [t|]; cbn; try done.
  intros H. apply IH in H. done.
Qed.

Lemma dynstackToString_same fuel stack m r m' :
  dynstackToString fuel stack m = Done r m' -> same_objects m m'.
Proof.
  unfold dynstackToString.
  destruct (decide (stack = NULL)); [by intros [= _ <-]|].
  intros (t & m1 & Ht & (e & m2 & He & (cur & m3 & Hc & H)%bind_Done)%bind_Done)%bind_Done.
  apply dynstackTopToString_same in Ht.
  apply dynstackIsEmpty_same in He as ->.
  apply toString_loop_same in H.
  assert (m3 = m1) as ->; [|by eapply same_objects_trans].
  revert Hc. destruct e; [by intros [= _ <-]|]. unfold_ops.
  destruct (stacks m1 !! stack) as [s|]; [|done]. cbn.
  destruct (frames m1 !! top s); [by intros [= _ <-] | done].
Qed.

Lemma map_loop_same fuel (func : option (effect_fn W)) cur m m' :
  map_loop fuel func cur m = Done tt m' -> same_objects m m'.
Proof.
  revert cur m. induction fuel as [|fuel IH]; intros cur m; [done|].
  cbn [map_loop]. destruct (decide (cur = NULL)); [by intros [= <-]|].
  unfold_ops. destruct (frames m !! cur) as [f|]; [|done]. cbn.
  destruct func as [g|]; [|done]. cbn. intros H. apply IH in H. done.
Qed.

Lemma dynstackMap_same fuel stack (func : option (effect_fn W)) m m' :
  dynstackMap fuel stack func m = Done tt m' -> same_objects m m'.
Proof.
  unfold dynstackMap. destruct (decide (stack = NULL)); [by intros [= <-]|].
  intros ([] & m1 & He & H)%bind_Done; apply dynstackIsEmpty_same in He as ->.
  - by injection H as <-.
  - apply bind_Done in H as (s & m2 & Hs & H). apply map_loop_same in H.
    revert Hs. unfold load_stack. destruct (stacks m !! stack); [|done].
    by intros [= _ <-].
Qed.

(** ** Every operation keeps the stack well-formed *)

Lemma size_nonzero_cons ns :
  to_uint (Z.of_nat (length ns)) <> 0 -> exists a d ns', ns = (a, d) :: ns'.
Proof. destruct ns as [|[a d] ns']; [done | eauto]. Qed.

Lemma clear_loop_preserves fuel m stack del pr ns m' :
  stack_at m stack del pr ns ->
  clear_loop fuel stack m = Done tt m' ->
  exists ns', stack_at m' stack del pr ns'.
Proof.
  revert m ns. induction fuel as [|fuel IH]; intros m ns H; [done|].
  cbn [clear_loop]. unfold bind at 1.
  rewrite (dynstackIsEmpty_at _ _ _ _ _ H). case_bool_decide as Hsz.
  - intros [= <-]. eauto.
  - destruct (size_nonzero_cons _ Hsz) as (a & d & ns' & ->).
    destruct (dynstackPop_cons _ _ _ _ _ _ _ H) as (m1 & Hp & H1 & _).
    unfold bind at 1. rewrite Hp. destruct (H1) as [_ (t & Ht & _) _].
    unfold load_stack, bind at 1. rewrite Ht. cbn. intros Hc.
    by eapply (IH _ ns'); [apply stack_at_set_world|].
Qed.

Lemma run_op_preserves fuel m stack del pr ns o m' :
  stack_at m stack del pr ns ->
  run_op fuel stack o m = Done tt m' ->
  exists ns', stack_at m' stack del pr ns'.
Proof.
  intros H. pose proof (stack_at_nonnull _ _ _ _ _ H) as Hnn.
  destruct o as [d| | | | | | |func]; cbn [run_op].
  - intros (b & m1 & Hp & [= <-])%bind_Done.
    destruct (avail m 0%nat) eqn:Hav.
    + destruct (dynstackPush_served _ _ _ _ _ d H Hav) as (m2 & Hp2 & H2 & _).
      rewrite Hp in Hp2. injection Hp2 as _ <-. eauto.
    + rewrite dynstackPush_refused in Hp by done. injection Hp as _ <-.
      eauto using stack_at_answered.
  - intros (x & m1 & Hp & [= <-])%bind_Done.
    destruct ns as [|[a d] ns].
    + rewrite (dynstackPop_nil _ _ _ _ H) in Hp. injection Hp as _ <-. eauto.
    + destruct (dynstackPop_cons _ _ _ _ _ _ _ H) as (m2 & Hp2 & H2 & _).
      rewrite Hp in Hp2. injection Hp2 as _ <-. eauto.
  - intros (x & m1 & Hp & [= <-])%bind_Done.
    apply dynstackPeek_same in Hp as ->. eauto.
  - intros (x & m1 & Hp & [= <-])%bind_Done.
    apply dynstackGetSize_same in Hp as ->. eauto.
  - intros (x & m1 & Hp & [= <-])%bind_Done.
    apply dynstackIsEmpty_same in Hp as ->. eauto.
  - unfold dynstackClear. rewrite decide_False by done.
    intros Hc. by eapply clear_loop_preserves.
  - intros (x & m1 & Hp & [= <-])%bind_Done.
    apply dynstackToString_same in Hp. eauto using stack_at_same_objects.
  - intros Hm. apply dynstackMap_same in Hm.
    eauto using stack_at_same_objects.
Qed.

Lemma run_ops_preserves fuel m stack del pr ns os m' :
  stack_at m stack del pr ns ->
  run_ops fuel stack os m = Done tt m' ->
  exists ns', stack_at m' stack del pr ns'.
Proof.
  revert m ns. induction os as [|o os IH]; intros m ns H.
  - intros [= <-]. eauto.
  - cbn [run_ops]. intros ([] & m1 & Ho & Hos)%bind_Done.
    destruct (run_op_preserves _ _ _ _ _ _ _ _ H Ho) as (ns1 & H1).
    by eapply IH.
Qed.

(** What [stack_at] says of the fields of the head. *)
Lemma stack_at_fields m stack del pr ns :
  stack_at m stack del pr ns ->
  exists s,
    stacks m !! stack = Some s /\
    chain (frames m) (top s) ns /\
    size s = to_uint (Z.of_nat (length ns)) /\
    (top s = NULL <-> ns = []).
Proof.
  intros [_ (t & Ht & Hc) _]. eexists. split; [exact Ht|]. cbn.
  split_and!; [done..|]. by eapply chain_nil_iff.
Qed.

(** ** Every operation returns, given fuel and memory *)

Lemma to_uint_le z : 0 <= z -> to_uint z <= z.
Proof. intros Hz. unfold to_uint. apply Z.mod_le; [done|reflexivity]. Qed.

Lemma clear_loop_returns m stack del pr ns fuel :
  stack_at m stack del pr ns ->
  (length ns < fuel)%nat ->
  exists m' ns',
    clear_loop fuel stack m = Done tt m' /\
    stack_at m' stack del pr ns' /\
    (length ns' <= length ns)%nat /\
    avail m' = avail m.
Proof.
  intros H Hfuel.
  pose proof (to_uint_range (Z.of_nat (length ns))) as [Hlo _].
  pose proof (to_uint_le (Z.of_nat (length ns)) ltac:(lia)) as Hle.
  set (k := Z.to_nat (to_uint (Z.of_nat (length ns)))).
  assert (Hk : (k <= length ns)%nat) by lia.
  rewrite <- (take_drop k ns) in H.
  destruct (clear_loop_at m stack del pr (take k ns) (drop k ns) fuel H)
    as (m' & Hc & H' & _ & _ & Hav & _).
  - rewrite take_drop, length_take, Nat.min_l by done. lia.
  - rewrite length_take. lia.
  - exists m', (drop k ns). split_and!; try done. rewrite length_drop. lia.
Qed.

Lemma run_op_returns fuel m stack del pr ns o :
  stack_at m stack del pr ns ->
  (forall i, avail m i = true) ->
  op_defined o ->
  (length ns < fuel)%nat ->
  exists m' ns',
    run_op fuel stack o m = Done tt m' /\
    stack_at m' stack del pr ns' /\
    (forall i, avail m' i = true) /\
    (length ns' <= S (length ns))%nat.
Proof.
  intros H Hav Hdef Hfuel. pose proof (stack_at_nonnull _ _ _ _ _ H) as Hnn.
  destruct o as [d| | | | | | |[func|]]; cbn [run_op]; [..|done]; unfold bind, ret.
  - destruct (dynstackPush_served _ _ _ _ _ d H (Hav 0%nat))
      as (m' & Hp & H' & _ & Hav' & _).
    exists m', ((brk m, d) :: ns). rewrite Hp. split_and!; try done.
    intros i. by rewrite Hav'.
  - destruct ns as [|[a d] ns].
    + exists m, []. rewrite (dynstackPop_nil _ _ _ _ H). split_and!; try done.
      cbn. lia.
    + destruct (dynstackPop_cons _ _ _ _ _ _ _ H) as (m' & Hp & H' & _ & _ & Hav' & _).
      exists m', ns. rewrite Hp. split_and!; try done.
      * intros i. by rewrite Hav'.
      * cbn. lia.
  - exists m, ns. rewrite (dynstackPeek_at _ _ _ _ _ H). split_and!; try done. lia.
  - exists m, ns. rewrite (dynstackGetSize_at _ _ _ _ _ H). split_and!; try done. lia.
  - exists m, ns. rewrite (dynstackIsEmpty_at _ _ _ _ _ H). split_and!; try done. lia.
  - destruct (clear_loop_returns _ _ _ _ _ fuel H Hfuel) as (m' & ns' & Hc & H' & Hle & Hav').
    exists m', ns'. unfold dynstackClear. rewrite decide_False by done.
    split_and!; try done; [|lia]. intros i. by rewrite Hav'.
  - destruct (decide (to_uint (Z.of_nat (length ns)) = 0)) as [Hz|Hnz].
    + exists (answered m), ns.
      rewrite (dynstackToString_zero _ _ _ _ _ _ H) by (done || lia).
      split_and!; try done; [by apply stack_at_answered| |lia].
      intros i. apply Hav.
    + destruct (size_nonzero_cons _ Hnz) as (a & d & ns' & ->).
      destruct (dynstackToString_cons _ _ _ _ _ _ _ fuel H Hnz)
        as (m' & Hs & Hf & Hst & Hb & _ & Hav').
      { intros i _. apply Hav. }
      { cbn in Hfuel. lia. }
      exists m', ((a, d) :: ns'). rewrite Hs. split_and!; try done; [| |lia].
      * by apply (stack_at_same_objects m).
      * intros i. rewrite Hav'. apply Hav.
  - destruct (decide (to_uint (Z.of_nat (length ns)) = 0)) as [Hz|Hnz].
    + exists m, ns. rewrite (dynstackMap_zero _ _ _ _ _ _ _ H) by done.
      split_and!; try done. lia.
    + exists (set_world (fun w => foldl (fun w d => func d w) w (elements ns)) m), ns.
      rewrite (dynstackMap_at _ _ _ _ _ _ _ H) by done.
      split_and!; try done; [by apply stack_at_set_world|lia].
Qed.

Lemma run_ops_returns fuel m stack del pr ns os :
  stack_at m stack del pr ns ->
  (forall i, avail m i = true) ->
  Forall op_defined os ->
  (length ns + length os < fuel)%nat ->
  exists m', run_ops fuel stack os m = Done tt m'.
Proof.
  revert m ns. induction os as [|o os IH]; intros m ns H Hav Hdef Hfuel.
  - by exists m.
  - apply Forall_cons in Hdef as [Ho Hos]. cbn [length] in Hfuel.
    destruct (run_op_returns fuel _ _ _ _ _ o H Hav Ho ltac:(lia))
      as (m1 & ns1 & Hr & H1 & Hav1 & Hle).
    destruct (IH m1 ns1 H1 Hav1 Hos ltac:(lia)) as (m' & Hrs).
    exists m'. cbn [run_ops]. unfold bind. by rewrite Hr.
Qed.

(** ** Destruction *)

Lemma dynstackFree_absent m fuel : dynstackFree fuel NULL m = Done tt m.
Proof. reflexivity. Qed.

(** Destroying a stack releases each element once, frees the nodes and then
    the head. *)
Lemma dynstackFree_at m stack del pr ns fuel :
  stack_at m stack del pr ns ->
  Z.of_nat (length ns) < UINT_RANGE ->
  (length ns < fuel)%nat ->
  exists m',
    dynstackFree fuel stack m = Done tt m' /\
    world m' = foldl (fun w d => del d w) (world m) (elements ns) /\
    frames m' = foldl (fun fr a => delete a fr) (frames m) ns.*1 /\
    stacks m' !! stack = None.
Proof.
  intros H Hlen Hfuel. pose proof (stack_at_nonnull _ _ _ _ _ H) as Hnn.
  destruct (clear_loop_at m stack del pr ns [] fuel)
    as (m1 & Hc & H1 & Hf & _ & _ & Hw).
  { by rewrite app_nil_r. }
  { rewrite app_nil_r. apply to_uint_small. lia. }
  { done. }
  destruct H as [_ (t & Ht & _) _], H1 as [_ (t1 & Ht1 & _) _].
  eexists. split.
  { unfold dynstackFree, dynstackClear, bind. rewrite !decide_False by done.
    rewrite Hc. unfold free_stack. rewrite Ht1. reflexivity. }
  cbn [frames stacks world set_stacks]. split_and!; try done.
  apply lookup_delete_eq.
Qed.

(** ** Further facts the claims rest on *)

Lemma dynstackNew_built m del pr st m0 :
  wf m ->
  dynstackNew (Some del) (Some pr) m = Done st m0 ->
  st <> NULL ->
  stack_at m0 st del pr [].
Proof.
  intros Hwf Hnew Hnn. destruct (avail m 0%nat) eqn:Hav.
  - destruct (dynstackNew_served _ del pr Hwf Hav) as (m' & Hnew' & H' & _).
    rewrite Hnew in Hnew'. by injection Hnew' as -> <-.
  - rewrite dynstackNew_refused in Hnew by done. by injection Hnew as <-.
Qed.

Lemma lookup_foldl_delete fr (l : list ptr) a :
  a ∈ l -> foldl (fun fr a => delete a fr) fr l !! a = None.
Proof.
  revert fr. induction l as [|b l IH]; intros fr Ha.
  - by apply elem_of_nil in Ha.
  - cbn [foldl]. destruct (decide (a ∈ l)) as [Hin|Hnin]; [by apply IH|].
    apply elem_of_cons in Ha as [->|Ha]; [|done].
    clear IH. revert fr. induction l as [|c l IH]; intros fr.
    + apply lookup_delete_eq.
    + cbn [foldl]. apply not_elem_of_cons in Hnin as [Hne Hnin].
      rewrite delete_delete. by apply IH.
Qed.

Lemma chain_head fr fr' p q ns : chain fr p ns -> chain fr' q ns -> p = q.
Proof.
  destruct ns as [|n ns]; cbn; [congruence|]. intros (-> & _) (-> & _). done.
Qed.

(** * The claims *)

(** C1 -- Strict LIFO.  When the pushes of [e1, ..., en] onto a stack have all
    succeeded, the [n] pops that follow return [en, ..., e1] in that order,
    each value being the very pointer that was pushed, and the stack holds
    again the nodes it held before the pushes. *)
Theorem lifo_order m stack del pr ns ds m1 :
  stack_at m stack del pr ns ->
  pushes stack ds m = Done (replicate (length ds) true) m1 ->
  exists m2,
    pops stack (length ds) m1 = Done (reverse ds) m2 /\
    stack_at m2 stack del pr ns.
Proof.
  intros H Hp. pose proof (stack_at_nonnull _ _ _ _ _ H) as Hnn.
  pose proof (pushes_true _ _ _ _ Hnn Hp) as Hsv.
  destruct (pushes_served _ _ _ _ _ ds H Hsv) as (m' & ns' & Hp' & H' & Hel & _).
  rewrite Hp in Hp'. injection Hp' as <-.
  destruct (pops_at _ _ _ _ _ _ H') as (m2 & Hpop & H2 & _).
  exists m2. split; [|done].
  assert (Hlen : length ns' = length ds).
  { rewrite <- (length_reverse ds), <- Hel. unfold elements.
    by rewrite length_fmap. }
  by rewrite <- Hlen, <- Hel.
Qed.

(** Rendering the whole stack while the allocator serves.  On a stack holding
    [A], [B], [C] from the top, [dynstackToString] returns the text of [A], a
    line break, the text of [B], a line break and the text of [C], with
    nothing after it; on an empty stack it returns the empty text.  This is
    the path on which the allocator serves the requests of the call. *)
Lemma dynstackToString_lines m stack del pr a1 a2 a3 A B C fuel :
  serves m 2 ->
  (2 < fuel)%nat ->
  (stack_at m stack del pr [(a1, A); (a2, B); (a3, C)] ->
   exists m',
     dynstackToString fuel stack m =
       Done (Some (pr (world m) A +:+ newline +:+
                   pr (world m) B +:+ newline +:+
                   pr (world m) C)) m' /\
     same_objects m m' /\ world m' = world m) /\
  (stack_at m stack del pr [] ->
   dynstackToString fuel stack m = Done (Some EmptyString) (answered m)).
Proof.
  intros Hsv Hfuel. split; intros H.
  - destruct (dynstackToString_cons _ _ _ _ _ _ _ fuel H)
      as (m' & Hs & Hf & Hst & Hb & Hw & _); [done..|].
    exists m'. split; [exact Hs|]. by split.
  - apply (dynstackToString_nil _ _ _ _ _ H); [apply Hsv|]; lia.
Qed.

(** C4 -- Push (amended).  [dynstackPush] returns [false] and leaves every
    object as it is when the stack is absent or when the allocator refuses the
    node; otherwise it links a new node holding the element as the new top,
    sets the count to the old count plus one modulo [2^32] -- exactly one more
    whenever the old count is below [UINT_MAX] -- and returns [true]. *)
Theorem dynstackPush_outcome m stack del pr ns d :
  stack_at m stack del pr ns ->
  dynstackPush NULL d m = Done false m /\
  (avail m 0%nat = false ->
   dynstackPush stack d m = Done false (answered m) /\
   frames (answered m) = frames m /\ stacks (answered m) = stacks m) /\
  (avail m 0%nat = true ->
   exists m' s s',
     dynstackPush stack d m = Done true m' /\
     stack_at m' stack del pr ((brk m, d) :: ns) /\
     stacks m !! stack = Some s /\
     stacks m' !! stack = Some s' /\
     top s' = brk m /\
     frames m' !! brk m = Some (mkFrame d (top s)) /\
     size s' = to_uint (size s + 1) /\
     (size s < UINT_MAX -> size s' = size s + 1)).
Proof.
  intros H. pose proof (stack_at_nonnull _ _ _ _ _ H) as Hnn.
  split_and!; [done| |].
  - intros Hav. by rewrite dynstackPush_refused.
  - intros Hav.
    destruct (dynstackPush_served _ _ _ _ _ d H Hav) as (m' & Hp & H' & _).
    destruct (stack_at_fields _ _ _ _ _ H) as (s & Hs & Hc & Hsz & _).
    destruct (stack_at_fields _ _ _ _ _ H') as (s' & Hs' & Hc' & Hsz' & _).
    exists m', s, s'. split_and!; try done.
    + by destruct Hc' as (-> & _).
    + destruct Hc' as (Ht' & _ & q & Hq & Hc'). cbn [fst snd] in *.
      rewrite Ht' in Hq. rewrite Hq. do 2 f_equal.
      by eapply chain_head.
    + rewrite Hsz', Hsz, to_uint_succ. f_equal. cbn [length]. lia.
    + intros Hlt. rewrite Hsz', Hsz in *.
      replace (Z.of_nat (length ((brk m, d) :: ns)))
        with (Z.of_nat (length ns) + 1) by (cbn [length]; lia).
      rewrite <- to_uint_succ. apply to_uint_small.
      pose proof (to_uint_range (Z.of_nat (length ns))).
      unfold UINT_MAX in Hlt. lia.
Qed.

(** C5 -- Pop (amended).  [dynstackPop] returns [NULL] and changes nothing
    when the stack is absent or holds no node; otherwise it unlinks the top
    node, sets the count to the old count minus one modulo [2^32] -- exactly
    one less whenever the old count is above zero --, frees the node without
    releasing the element, and returns the element that was on top. *)
Theorem dynstackPop_outcome m stack del pr ns :
  stack_at m stack del pr ns ->
  dynstackPop NULL m = Done NULL m /\
  (ns = [] -> dynstackPop stack m = Done NULL m) /\
  (forall a d ns', ns = (a, d) :: ns' ->
   exists m' s s',
     dynstackPop stack m = Done d m' /\
     stack_at m' stack del pr ns' /\
     stacks m !! stack = Some s /\
     stacks m' !! stack = Some s' /\
     top s = a /\
     frames m' = delete a (frames m) /\
     world m' = world m /\
     size s' = to_uint (size s - 1) /\
     (0 < size s -> size s' = size s - 1)).
Proof.
  intros H. split_and!; [done| |].
  - intros ->. by eapply dynstackPop_nil.
  - intros a d ns' ->.
    destruct (dynstackPop_cons _ _ _ _ _ _ _ H) as (m' & Hp & H' & Hf & _ & _ & Hw).
    destruct (stack_at_fields _ _ _ _ _ H) as (s & Hs & Hc & Hsz & _).
    destruct (stack_at_fields _ _ _ _ _ H') as (s' & Hs' & Hc' & Hsz' & _).
    exists m', s, s'. split_and!; try done.
    + by destruct Hc as (-> & _).
    + rewrite Hsz', Hsz, to_uint_pred. f_equal. cbn [length]. lia.
    + intros Hpos. rewrite Hsz', Hsz in *.
      replace (Z.of_nat (length ns'))
        with (Z.of_nat (length ((a, d) :: ns')) - 1) by (cbn [length]; lia).
      rewrite <- to_uint_pred. apply to_uint_small.
      pose proof (to_uint_range (Z.of_nat (length ((a, d) :: ns')))). lia.
Qed.

(** A run of pushes and pops in any order returns, keeps the stack
    well-formed and, when no pop was made on a stack without nodes, leaves as
    many nodes as there were, plus the pushes that succeeded, less the
    pops. *)
Lemma moves_at m stack del pr ns (ms : list move) :
  stack_at m stack del pr ns ->
  exists es m' ns',
    moves stack ms m = Done es m' /\
    stack_at m' stack del pr ns' /\
    (pops_find_nodes (length ns) es = true ->
     (count_popped es <= length ns + count_pushed es)%nat /\
     (length ns' + count_popped es = length ns + count_pushed es)%nat).
Proof.
  revert m ns. induction ms as [|[d|] ms IH]; intros m ns H.
  - exists [], m, ns. split_and!; try done. cbn. lia.
  - pose proof (stack_at_nonnull _ _ _ _ _ H) as Hnn.
    cbn [moves]. unfold bind at 1. destruct (avail m 0%nat) eqn:Hav.
    + destruct (dynstackPush_served _ _ _ _ _ d H Hav) as (m1 & Hp & H1 & _).
      destruct (IH m1 _ H1) as (es & m' & ns' & Hr & H' & Hn).
      exists (Pushed true :: es), m', ns'. rewrite Hp. unfold bind at 1.
      rewrite Hr. split_and!; try done. cbn. intros Hb.
      destruct (Hn Hb) as [Hle Hlen]. cbn [length] in Hle, Hlen. lia.
    + rewrite dynstackPush_refused by done.
      destruct (IH (answered m) ns (stack_at_answered _ _ _ _ _ H))
        as (es & m' & ns' & Hr & H' & Hn).
      exists (Pushed false :: es), m', ns'. unfold bind at 1.
      rewrite Hr. split_and!; try done.
  - cbn [moves]. unfold bind at 1. destruct ns as [|[a d] ns].
    + rewrite (dynstackPop_nil _ _ _ _ H).
      destruct (IH m [] H) as (es & m' & ns' & Hr & H' & Hn).
      exists (Popped NULL :: es), m', ns'. unfold bind at 1.
      rewrite Hr. split_and!; try done.
    + destruct (dynstackPop_cons _ _ _ _ _ _ _ H) as (m1 & Hp & H1 & _).
      destruct (IH m1 ns H1) as (es & m' & ns' & Hr & H' & Hn).
      exists (Popped d :: es), m', ns'. rewrite Hp. unfold bind at 1.
      rewrite Hr. split_and!; try done. cbn. intros Hb.
      destruct (Hn Hb) as [Hle Hlen]. cbn [length] in Hle, Hlen. lia.
Qed.

(** C6 -- The size after pushes and pops (amended).  After pushes and pops
    made in any order on a new stack, [k] of the pushes having succeeded and
    none of the [j] pops having been made while no node was linked (so that
    [j <= k]), [dynstackGetSize] returns [k - j] modulo [2^32], which is
    [k - j] whenever [k - j] is below [2^32]; [dynstackIsEmpty] is true
    exactly when that size is [0]; on an absent stack [dynstackGetSize]
    returns [0].  Every such run of pushes and pops returns. *)
Theorem size_after_pushes_pops m del pr st m0 (ms : list move) :
  wf m ->
  dynstackNew (Some del) (Some pr) m = Done st m0 ->
  st <> NULL ->
  exists es m1 n,
    moves st ms m0 = Done es m1 /\
    dynstackGetSize st m1 = Done n m1 /\
    dynstackIsEmpty st m1 = Done (bool_decide (n = 0)) m1 /\
    dynstackGetSize NULL m1 = Done 0 m1 /\
    (pops_find_nodes 0 es = true ->
     Z.of_nat (count_popped es) <= Z.of_nat (count_pushed es) /\
     n = to_uint (Z.of_nat (count_pushed es) - Z.of_nat (count_popped es)) /\
     (Z.of_nat (count_pushed es) - Z.of_nat (count_popped es) < UINT_RANGE ->
      n = Z.of_nat (count_pushed es) - Z.of_nat (count_popped es))).
Proof.
  intros Hwf Hnew Hnn.
  pose proof (dynstackNew_built _ _ _ _ _ Hwf Hnew Hnn) as H0.
  destruct (moves_at _ _ _ _ _ ms H0) as (es & m1 & ns & Hr & H1 & Hn).
  exists es, m1, (to_uint (Z.of_nat (length ns))). split_and!; try done.
  - by apply (dynstackGetSize_at _ _ _ _ _ H1).
  - by apply (dynstackIsEmpty_at _ _ _ _ _ H1).
  - intros Hb. destruct (Hn Hb) as [Hle Hlen]. cbn [length] in Hle, Hlen.
    assert (Hk : Z.of_nat (length ns)
                 = Z.of_nat (count_pushed es) - Z.of_nat (count_popped es))
      by lia.
    split_and!; [lia | by rewrite Hk |].
    intros Hlt. rewrite Hk. apply to_uint_small. lia.
Qed.

(** C7 -- Clearing (amended).  On a stack holding fewer than [2^32] elements,
    [dynstackClear] calls the releaser once on each element, from the top
    down, frees every node, and leaves the stack with count [0] and no top
    node; on an absent stack it does nothing. *)
Theorem dynstackClear_releases m stack del pr ns fuel :
  stack_at m stack del pr ns ->
  Z.of_nat (length ns) < UINT_RANGE ->
  (length ns < fuel)%nat ->
  dynstackClear fuel NULL m = Done tt m /\
  exists m' s',
    dynstackClear fuel stack m = Done tt m' /\
    world m' = foldl (fun w d => del d w) (world m) (elements ns) /\
    (forall a, a ∈ ns.*1 -> frames m' !! a = None) /\
    stack_at m' stack del pr [] /\
    stacks m' !! stack = Some s' /\
    size s' = 0 /\
    top s' = NULL.
Proof.
  intros H Hlen Hfuel. pose proof (stack_at_nonnull _ _ _ _ _ H) as Hnn.
  split; [done|].
  destruct (clear_loop_at m stack del pr ns [] fuel)
    as (m' & Hc & H' & Hf & _ & _ & Hw).
  { by rewrite app_nil_r. }
  { rewrite app_nil_r. apply to_uint_small. lia. }
  { done. }
  destruct (stack_at_fields _ _ _ _ _ H') as (s' & Hs' & _ & Hsz' & Ht').
  exists m', s'. split_and!; try done.
  - unfold dynstackClear. by rewrite decide_False.
  - intros a Ha. rewrite Hf. by apply lookup_foldl_delete.
  - by apply Ht'.
Qed.

(** The text of the top of an empty stack while the allocator serves.  On a
    stack that is there and empty, [dynstackTopToString] returns a newly
    allocated empty text when the allocator serves the buffer; on an absent
    stack it returns [NULL]; the two results differ. *)
Lemma dynstackTopToString_empty_absent m stack del pr :
  stack_at m stack del pr [] ->
  avail m 0%nat = true ->
  dynstackTopToString stack m = Done (Some EmptyString) (answered m) /\
  dynstackTopToString NULL m = Done None m /\
  Some EmptyString <> (None : text).
Proof.
  intros H Hav. split_and!; [|done..].
  by rewrite (dynstackTopToString_zero _ _ _ _ _ H), Hav.
Qed.

(** C9 -- The size field (amended).  On a stack produced by a successful
    construction, after any sequence of pushes, pops, peeks, size and
    emptiness queries, clears, renderings and traversals, the [size] field
    equals the number of nodes reachable from [top] modulo [2^32], and [top]
    is [NULL] exactly when no node is reachable; hence, while fewer than
    [2^32] nodes are linked, [size] is the number of nodes and [top] is
    [NULL] exactly when [size] is [0].  Such a sequence runs to its end when
    the allocator serves every request, every traversal has a visitor and
    the loops have fuel. *)
Theorem size_field_invariant m del pr st m0 fuel os :
  wf m ->
  dynstackNew (Some del) (Some pr) m = Done st m0 ->
  st <> NULL ->
  (forall m1,
     run_ops fuel st os m0 = Done tt m1 ->
     exists s ns,
       stacks m1 !! st = Some s /\
       chain (frames m1) (top s) ns /\
       size s = to_uint (Z.of_nat (length ns)) /\
       (top s = NULL <-> ns = []) /\
       (Z.of_nat (length ns) < UINT_RANGE ->
        size s = Z.of_nat (length ns) /\ (top s = NULL <-> size s = 0))) /\
  ((forall i, avail m0 i = true) ->
   Forall op_defined os ->
   (length os < fuel)%nat ->
   exists m1, run_ops fuel st os m0 = Done tt m1).
Proof.
  intros Hwf Hnew Hnn.
  pose proof (dynstackNew_built _ _ _ _ _ Hwf Hnew Hnn) as H0.
  split.
  - intros m1 Hrun.
    destruct (run_ops_preserves _ _ _ _ _ _ _ _ H0 Hrun) as (ns & H1).
    destruct (stack_at_fields _ _ _ _ _ H1) as (s & Hs & Hc & Hsz & Ht).
    exists s, ns. split_and!; try done.
    intros Hlt. rewrite Hsz, to_uint_small by lia. split; [done|].
    rewrite Ht. destruct ns; cbn [length]; split; (done || lia).
  - intros Hav Hdef Hfuel. by eapply run_ops_returns.
Qed.

(** C10 -- Pushing a null element (amended).  [dynstackPush] treats [NULL]
    like any other element.  When the allocator refuses the node the push
    returns [false] and the stack is as it was.  When it serves the node the
    push returns [true], a node storing [NULL] is the new top and the count
    is the old count plus one modulo [2^32]; the pop that follows returns
    [NULL], which is also what [dynstackPop] returns on an absent stack and
    on a stack without nodes. *)
Theorem dynstackPush_null_element m stack del pr ns :
  stack_at m stack del pr ns ->
  (avail m 0%nat = false ->
   dynstackPush stack NULL m = Done false (answered m) /\
   same_objects m (answered m) /\
   stack_at (answered m) stack del pr ns) /\
  (avail m 0%nat = true ->
   exists m1 m2 s s1,
     dynstackPush stack NULL m = Done true m1 /\
     stack_at m1 stack del pr ((brk m, NULL) :: ns) /\
     stacks m !! stack = Some s /\
     stacks m1 !! stack = Some s1 /\
     size s1 = to_uint (size s + 1) /\
     dynstackPop stack m1 = Done NULL m2 /\
     stack_at m2 stack del pr ns) /\
  dynstackPop NULL m = Done NULL m /\
  (ns = [] -> dynstackPop stack m = Done NULL m).
Proof.
  intros H. pose proof (stack_at_nonnull _ _ _ _ _ H) as Hnn.
  split_and!; [| |done|].
  - intros Hav. split_and!; [by apply dynstackPush_refused | done |].
    by apply stack_at_answered.
  - intros Hav.
    destruct (dynstackPush_served _ _ _ _ _ NULL H Hav) as (m1 & Hp & H1 & _).
    destruct (dynstackPop_cons _ _ _ _ _ _ _ H1) as (m2 & Hpop & H2 & _).
    destruct (stack_at_fields _ _ _ _ _ H) as (s & Hs & _ & Hsz & _).
    destruct (stack_at_fields _ _ _ _ _ H1) as (s1 & Hs1 & _ & Hsz1 & _).
    exists m1, m2, s, s1. split_and!; try done.
    rewrite Hsz1, Hsz, to_uint_succ. f_equal. cbn [length]. lia.
  - intros ->. by eapply dynstackPop_nil.
Qed.

End Proofs.

(** * The client's memories *)

Example built_by_dynstackNew :
  dynstackNew (Some Client.record) (Some Client.show) Client.pristine
  = Done 1 Client.built.
Proof. reflexivity. Qed.

Example one_by_dynstackPush :
  dynstackPush 1 100 Client.built = Done true Client.one.
Proof. vm_compute. reflexivity. Qed.

Example three_by_pushes :
  pushes 1 [10; 20; 30] Client.built = Done [true; true; true] Client.three.
Proof. vm_compute. reflexivity. Qed.

Example session_outcome :
  exists m,
    Client.session Client.built
    = Done (3, 3, [3; 2; 1], NULL, Some ("20" +:+ newline +:+ "10")) m.
Proof. eexists. vm_compute. reflexivity. Qed.

Lemma pristine_wf : wf Client.pristine.
Proof.
  unfold wf. cbn. split_and!; [lia|..]; intros a [x Hx];
    by rewrite lookup_empty in Hx.
Qed.

Lemma built_at : stack_at Client.built 1 Client.record Client.show [].
Proof.
  apply (dynstackNew_built Client.pristine Client.record Client.show 1);
    [apply pristine_wf|done..].
Qed.

Lemma one_at : stack_at Client.one 1 Client.record Client.show [(2, 100)].
Proof.
  destruct (dynstackPush_served _ _ _ _ _ 100 built_at) as (m' & Hp & H & _);
    [done|].
  rewrite one_by_dynstackPush in Hp. by injection Hp as <-.
Qed.

Lemma three_at :
  stack_at Client.three 1 Client.record Client.show [(4, 30); (3, 20); (2, 10)].
Proof.
  destruct (pushes_served _ _ _ _ _ [10; 20; 30] built_at)
    as (m' & ns' & Hp & H & Hel & _); [done|].
  rewrite three_by_pushes in Hp. injection Hp as <-.
  rewrite app_nil_r in H.
  assert (Hc : chain (frames Client.three) 4 [(4, 30); (3, 20); (2, 10)]).
  { cbn. split_and!; try done. exists 3. split; [done|].
    split_and!; try done. exists 2. split; [done|].
    split_and!; try done. exists NULL. done. }
  destruct (stack_at_fields _ _ _ _ _ H) as (s & Hs & Hc' & _).
  assert (s = mkStack 4 3 (Some Client.record) (Some Client.show)) as ->.
  { cbn in Hs. rewrite lookup_singleton_eq in Hs. by injection Hs. }
  by rewrite <- (chain_functional _ _ _ _ Hc' Hc).
Qed.

Lemma exhausted_at :
  stack_at Client.exhausted 1 Client.record Client.show
           [(4, 30); (3, 20); (2, 10)].
Proof. destruct three_at as [Hwf Hh Hnd]. by constructor. Qed.

Lemma drained_at : stack_at Client.drained 1 Client.record Client.show [].
Proof. destruct built_at as [Hwf Hh Hnd]. by constructor. Qed.

(** A stack grown by [n] successful pushes of [d]. *)
Lemma grown_at (n : nat) (d : ptr) :
  exists m ns,
    pushes 1 (replicate n d) Client.built = Done (replicate n true) m /\
    stack_at m 1 Client.record Client.show ns /\
    elements ns = replicate n d /\
    length ns = n /\
    world m = [] /\
    (forall i, avail m i = true).
Proof.
  destruct (pushes_served _ _ _ _ _ (replicate n d) built_at)
    as (m & ns & Hp & H & Hel & Hav & Hw); [done|].
  rewrite length_replicate in Hp. rewrite app_nil_r in H.
  rewrite reverse_replicate in Hel.
  exists m, ns. split_and!; try done.
  - rewrite <- (length_replicate n d), <- Hel. unfold elements.
    by rewrite length_fmap.
  - intros i. by rewrite Hav.
Qed.

Lemma to_the_brim_eq : Z.of_nat Client.to_the_brim = UINT_MAX.
Proof. unfold Client.to_the_brim. by apply Z2Nat.id. Qed.

Lemma once_around_eq : Z.of_nat Client.once_around = UINT_RANGE.
Proof. unfold Client.once_around. by apply Z2Nat.id. Qed.

Lemma grown_nonempty (n : nat) (d : ptr) ns :
  (0 < n)%nat -> elements ns = replicate n d ->
  exists a ns', ns = (a, d) :: ns'.
Proof.
  destruct n as [|n]; [lia|]. intros _. destruct ns as [|[a d'] ns']; [done|].
  cbn. intros [= -> _]. eauto.
Qed.

Lemma run_ops_pushes {W} fuel st (ds : list ptr) (m : mem W) bs m' :
  pushes st ds m = Done bs m' ->
  run_ops fuel st (OpPush <$> ds) m = Done tt m'.
Proof.
  revert m bs. induction ds as [|d ds IH]; intros m bs.
  - by intros [= _ <-].
  - cbn [pushes fmap list_fmap run_ops run_op]. unfold bind, ret.
    destruct (dynstackPush st d m) as [b m1| |]; [|done..].
    destruct (pushes st ds m1) as [bs' m2| |] eqn:Hp; [|done..].
    intros [= _ <-]. by eapply IH.
Qed.

(** * Where the 32-bit count wraps around *)

(** C4, counterexample.  On the stack that [UINT_MAX] successful pushes have
    built, one more push succeeds and takes the count from [4294967295] to
    [0], not to [4294967296]. *)
Lemma dynstackPush_count_wraps :
  exists m m',
    pushes 1 (replicate Client.to_the_brim 7) Client.built
    = Done (replicate Client.to_the_brim true) m /\
    dynstackGetSize 1 m = Done 4294967295 m /\
    dynstackPush 1 7 m = Done true m' /\
    dynstackGetSize 1 m' = Done 0 m' /\
    0 <> 4294967295 + 1.
Proof.
  pose proof to_the_brim_eq as Hn. revert Hn.
  generalize Client.to_the_brim. intros n Hn.
  destruct (grown_at n 7) as (m & ns & Hp & H & Hel & Hlen & Hw & Hav).
  destruct (dynstackPush_served _ _ _ _ _ 7 H (Hav 0%nat)) as (m' & Hpush & H' & _).
  exists m, m'. split_and!; [done| |done| |done].
  - rewrite (dynstackGetSize_at _ _ _ _ _ H), Hlen, Hn. reflexivity.
  - rewrite (dynstackGetSize_at _ _ _ _ _ H'). cbn [length].
    rewrite Nat2Z.inj_succ, Hlen, Hn. reflexivity.
Qed.

(** C5, counterexample.  On the stack that [2^32] successful pushes have
    built, the count is [0] and [dynstackIsEmpty] answers [true]; a pop
    returns an element all the same and takes the count from [0] to
    [4294967295], not to one less than [0]. *)
Lemma dynstackPop_count_wraps :
  exists m m',
    pushes 1 (replicate Client.once_around 7) Client.built
    = Done (replicate Client.once_around true) m /\
    dynstackIsEmpty 1 m = Done true m /\
    dynstackGetSize 1 m = Done 0 m /\
    dynstackPop 1 m = Done 7 m' /\
    dynstackGetSize 1 m' = Done 4294967295 m' /\
    4294967295 <> 0 - 1.
Proof.
  pose proof once_around_eq as Hn. revert Hn.
  generalize Client.once_around. intros n Hn.
  destruct (grown_at n 7) as (m & ns & Hp & H & Hel & Hlen & Hw & Hav).
  destruct (grown_nonempty n 7 ns) as (a & ns' & ->); [|done|].
  { rewrite UINT_RANGE_eq in Hn. lia. }
  destruct (dynstackPop_cons _ _ _ _ _ _ _ H) as (m' & Hpop & H' & _).
  exists m, m'. split_and!; [done| | |done| |done].
  - rewrite (dynstackIsEmpty_at _ _ _ _ _ H), Hlen, Hn. reflexivity.
  - rewrite (dynstackGetSize_at _ _ _ _ _ H), Hlen, Hn. reflexivity.
  - rewrite (dynstackGetSize_at _ _ _ _ _ H').
    replace (Z.of_nat (length ns')) with (UINT_RANGE - 1); [reflexivity|].
    cbn [length] in Hlen. lia.
Qed.

(** C6, counterexample.  The size is not always [k - j].  After [k = 2^32]
    successful pushes onto a new stack and [j = 0] pops, [dynstackGetSize]
    returns [0], not [2^32]; and after a pop followed by a successful push
    ([k = 1] and [j = 1 <= k], the pop made while no node was linked), it
    returns [1], not [0]. *)
Lemma dynstackGetSize_not_difference :
  dynstackNew (Some Client.record) (Some Client.show) Client.pristine
  = Done 1 Client.built /\
  (exists m m2,
     pushes 1 (replicate Client.once_around 7) Client.built
     = Done (replicate Client.once_around true) m /\
     Z.of_nat (length (replicate Client.once_around 7)) - 0 = 4294967296 /\
     pops 1 0 m = Done [] m2 /\
     dynstackGetSize 1 m2 = Done 0 m2 /\
     0 <> 4294967296) /\
  (exists m,
     moves 1 [Pop; Push 7] Client.built = Done [Popped NULL; Pushed true] m /\
     Z.of_nat (count_pushed [Popped NULL; Pushed true])
     - Z.of_nat (count_popped [Popped NULL; Pushed true]) = 0 /\
     dynstackGetSize 1 m = Done 1 m /\
     1 <> 0).
Proof.
  split_and!; [done| |].
  - rewrite length_replicate.
    pose proof once_around_eq as Hn. revert Hn.
    generalize Client.once_around. intros n Hn.
    destruct (grown_at n 7) as (m & ns & Hp & H & Hel & Hlen & Hw & Hav).
    exists m, m. split_and!; [done| |done| |done].
    + rewrite Hn. reflexivity.
    + rewrite (dynstackGetSize_at _ _ _ _ _ H), Hlen, Hn. reflexivity.
  - eexists. split_and!; [vm_compute; reflexivity | reflexivity
                         | vm_compute; reflexivity | done].
Qed.

(** C7, counterexample.  On the stack that [2^32] successful pushes have
    built, [dynstackClear] returns at once: the top node is still linked and
    the releaser has not been called. *)
Lemma dynstackClear_skips_wrapped_stack :
  exists m,
    pushes 1 (replicate Client.once_around 7) Client.built
    = Done (replicate Client.once_around true) m /\
    world m = [] /\
    dynstackClear 1 1 m = Done tt m /\
    dynstackPeek 1 m = Done 7 m /\
    7 <> NULL.
Proof.
  pose proof once_around_eq as Hn. revert Hn.
  generalize Client.once_around. intros n Hn.
  destruct (grown_at n 7) as (m & ns & Hp & H & Hel & Hlen & Hw & Hav).
  destruct (grown_nonempty n 7 ns) as (a & ns' & ->); [|done|].
  { rewrite UINT_RANGE_eq in Hn. lia. }
  exists m. split_and!; [done|done| | |done].
  - unfold dynstackClear. rewrite decide_False by done.
    cbn [clear_loop]. unfold bind, ret.
    rewrite (dynstackIsEmpty_at _ _ _ _ _ H), Hlen, Hn. reflexivity.
  - by rewrite (dynstackPeek_at _ _ _ _ _ H).
Qed.

(** C9, counterexample.  After [2^32] pushes onto a newly built stack, [2^32]
    nodes are reachable from [top], which is not [NULL], while the [size]
    field is [0]. *)
Lemma size_field_wraps :
  exists m s ns,
    dynstackNew (Some Client.record) (Some Client.show) Client.pristine
    = Done 1 Client.built /\
    run_ops 1 1 (OpPush <$> replicate Client.once_around 7) Client.built
    = Done tt m /\
    stacks m !! 1 = Some s /\
    chain (frames m) (top s) ns /\
    Z.of_nat (length ns) = 4294967296 /\
    size s = 0 /\
    top s <> NULL.
Proof.
  pose proof once_around_eq as Hn. revert Hn.
  generalize Client.once_around. intros n Hn.
  destruct (grown_at n 7) as (m & ns & Hp & H & Hel & Hlen & Hw & Hav).
  destruct (stack_at_fields _ _ _ _ _ H) as (s & Hs & Hc & Hsz & Ht).
  exists m, s, ns. split_and!; try done.
  - by eapply run_ops_pushes.
  - by rewrite Hlen, Hn.
  - rewrite Hsz, Hlen, Hn. reflexivity.
  - rewrite Ht. intros ->. cbn in Hlen. subst n. done.
Qed.

(** C10, counterexample.  The push of [NULL] does not always succeed, and
    when it does the count does not always increment.  With an allocator
    that refuses, the push of [NULL] onto the stack of three returns [false]
    and the top is still [30].  On the stack that [UINT_MAX] successful
    pushes have built, the push of [NULL] succeeds and links a node storing
    [NULL], but the count goes from [4294967295] to [0]. *)
Lemma dynstackPush_null_refused_or_wraps :
  (dynstackPush 1 NULL Client.exhausted = Done false (answered Client.exhausted) /\
   dynstackPeek 1 (answered Client.exhausted)
   = Done 30 (answered Client.exhausted) /\
   dynstackGetSize 1 (answered Client.exhausted)
   = Done 3 (answered Client.exhausted)) /\
  exists m m',
    pushes 1 (replicate Client.to_the_brim 7) Client.built
    = Done (replicate Client.to_the_brim true) m /\
    dynstackGetSize 1 m = Done 4294967295 m /\
    dynstackPush 1 NULL m = Done true m' /\
    dynstackPeek 1 m' = Done NULL m' /\
    dynstackGetSize 1 m' = Done 0 m' /\
    ~ 4294967295 < 0.
Proof.
  split; [split_and!; vm_compute; reflexivity|].
  pose proof to_the_brim_eq as Hn. revert Hn.
  generalize Client.to_the_brim. intros n Hn.
  destruct (grown_at n 7) as (m & ns & Hp & H & Hel & Hlen & Hw & Hav).
  destruct (dynstackPush_served _ _ _ _ _ NULL H (Hav 0%nat))
    as (m' & Hpush & H' & _).
  exists m, m'. split_and!; [done| |done| | |done].
  - rewrite (dynstackGetSize_at _ _ _ _ _ H), Hlen, Hn. reflexivity.
  - by rewrite (dynstackPeek_at _ _ _ _ _ H').
  - rewrite (dynstackGetSize_at _ _ _ _ _ H'). cbn [length].
    rewrite Nat2Z.inj_succ, Hlen, Hn. reflexivity.
Qed.

(** * The claims on the client's memories *)

(** C1 at work: [10], [20], [30] pushed, then popped. *)
Lemma lifo_order_witness :
  stack_at Client.built 1 Client.record Client.show [] /\
  pushes 1 [10; 20; 30] Client.built = Done [true; true; true] Client.three /\
  exists m2,
    pops 1 3 Client.three = Done [30; 20; 10] m2 /\
    stack_at m2 1 Client.record Client.show [].
Proof.
  split; [exact built_at|]. split; [vm_compute; reflexivity|].
  apply (lifo_order Client.built 1 Client.record Client.show [] [10; 20; 30]).
  - exact built_at.
  - vm_compute. reflexivity.
Defined.

(** C2 -- Traversal.  [dynstackMap] calls the visitor once for each node, from
    the top down (see [dynstackMap_at]), but hands it the element stored in
    the node, not the node: on the stack whose single node, at address [2],
    stores the element [100], the visitor, which logs what it is given, is
    called with [100] and not with [2]. *)
Theorem dynstackMap_passes_element :
  dynstackPush 1 100 Client.built = Done true Client.one /\
  top <$> stacks Client.one !! 1 = Some 2 /\
  frames Client.one !! 2 = Some (mkFrame 100 NULL) /\
  exists m',
    dynstackMap 2 1 (Some Client.record) Client.one = Done tt m' /\
    world m' = [100] /\
    world m' <> [2].
Proof.
  split_and!; [vm_compute; reflexivity..|].
  exists (set_world (fun _ => [100]) Client.one).
  split_and!; [vm_compute; reflexivity | reflexivity | discriminate].
Qed.

(** C3 -- Rendering the whole stack.  [dynstackToString] uses its buffers
    unchecked.  On the stack holding [30], [20], [10] from the top, with an
    allocator that refuses, [realloc] returns [NULL] for the second line and
    [strcat] writes through it; on the empty stack [malloc] returns [NULL]
    for the empty text and its first character is written through it.  In
    both cases the behaviour is undefined and no text is returned, where
    the three lines and the empty text are claimed.  [dynstackPush], on the
    same memory, checks the allocator's answer and returns [false]. *)
Theorem dynstackToString_unchecked_buffer :
  stack_at Client.exhausted 1 Client.record Client.show
           [(4, 30); (3, 20); (2, 10)] /\
  avail Client.exhausted 0%nat = false /\
  dynstackToString 4 1 Client.exhausted = Undefined /\
  (forall t m', dynstackToString 4 1 Client.exhausted <> Done t m') /\
  stack_at Client.drained 1 Client.record Client.show [] /\
  avail Client.drained 0%nat = false /\
  dynstackToString 4 1 Client.drained = Undefined /\
  (forall t m', dynstackToString 4 1 Client.drained <> Done t m') /\
  dynstackPush 1 40 Client.exhausted = Done false (answered Client.exhausted).
Proof.
  assert (H3 : dynstackToString 4 1 Client.exhausted = @Undefined Client.log text)
    by (vm_compute; reflexivity).
  assert (H0 : dynstackToString 4 1 Client.drained = @Undefined Client.log text)
    by (vm_compute; reflexivity).
  split_and!; [exact exhausted_at | reflexivity | exact H3 | | exact drained_at
              | reflexivity | exact H0 | | vm_compute; reflexivity].
  - intros t m'. rewrite H3. discriminate.
  - intros t m'. rewrite H0. discriminate.
Qed.

(** C8 -- The text of the top of an empty stack.  [dynstackTopToString] uses
    its buffer unchecked.  On the empty stack, with an allocator that
    refuses, [malloc] returns [NULL] and the first character of the text is
    written through it: the behaviour is undefined and no text is returned,
    where an empty text is claimed.  On an absent stack the result is
    [NULL].  [dynstackFrameNew], on the same memory, checks the allocator's
    answer and returns [NULL]. *)
Theorem dynstackTopToString_unchecked_buffer :
  stack_at Client.drained 1 Client.record Client.show [] /\
  avail Client.drained 0%nat = false /\
  dynstackTopToString 1 Client.drained = Undefined /\
  (forall t m', dynstackTopToString 1 Client.drained <> Done t m') /\
  dynstackTopToString NULL Client.drained = Done None Client.drained /\
  dynstackFrameNew 7 Client.drained = Done NULL (answered Client.drained).
Proof.
  assert (H0 : dynstackTopToString 1 Client.drained = @Undefined Client.log text)
    by (vm_compute; reflexivity).
  split_and!; [exact drained_at | reflexivity | exact H0 | | reflexivity
              | vm_compute; reflexivity].
  intros t m'. rewrite H0. discriminate.
Qed.

(** The stack holding [30], [20], [10], and the empty stack, rendered while
    the allocator serves. *)
Lemma dynstackToString_lines_witness :
  (serves Client.three 2 /\ (2 < 3)%nat /\
   stack_at Client.three 1 Client.record Client.show
            [(4, 30); (3, 20); (2, 10)] /\
   exists m',
     dynstackToString 3 1 Client.three
     = Done (Some ("30" +:+ newline +:+ "20" +:+ newline +:+ "10")) m' /\
     same_objects Client.three m' /\ world m' = world Client.three) /\
  (serves Client.built 2 /\
   stack_at Client.built 1 Client.record Client.show [] /\
   dynstackToString 3 1 Client.built
   = Done (Some EmptyString) (answered Client.built)).
Proof.
  assert (Hthree : serves Client.three 2) by (intros i _; reflexivity).
  assert (Hbuilt : serves Client.built 2) by (intros i _; reflexivity).
  split.
  - split_and!; [exact Hthree | lia | exact three_at |].
    apply (dynstackToString_lines Client.three 1 Client.record Client.show
             4 3 2 30 20 10 3); [exact Hthree | lia | exact three_at].
  - split_and!; [exact Hbuilt | exact built_at |].
    apply (dynstackToString_lines Client.built 1 Client.record Client.show
             4 3 2 30 20 10 3); [exact Hbuilt | lia | exact built_at].
Defined.

(** C4 at work: a push onto the stack of three, with an allocator that
    serves and with one that refuses. *)
Lemma dynstackPush_outcome_witness :
  stack_at Client.three 1 Client.record Client.show
           [(4, 30); (3, 20); (2, 10)] /\
  stack_at Client.exhausted 1 Client.record Client.show
           [(4, 30); (3, 20); (2, 10)] /\
  avail Client.three 0%nat = true /\
  avail Client.exhausted 0%nat = false /\
  dynstackPush NULL 40 Client.three = Done false Client.three /\
  dynstackPush 1 40 Client.exhausted = Done false (answered Client.exhausted) /\
  exists m' s',
    dynstackPush 1 40 Client.three = Done true m' /\
    stacks m' !! 1 = Some s' /\
    top s' = 5 /\
    frames m' !! 5 = Some (mkFrame 40 4) /\
    size s' = 4.
Proof.
  split_and!; [exact three_at | exact exhausted_at | reflexivity..| | |].
  - apply (dynstackPush_outcome _ _ _ _ _ 40 three_at).
  - apply (dynstackPush_outcome _ _ _ _ _ 40 exhausted_at). reflexivity.
  - destruct (dynstackPush_outcome _ _ _ _ _ 40 three_at) as (_ & _ & Hs).
    destruct (Hs eq_refl)
      as (m' & s & s' & Hp & _ & Hst & Hst' & Ht & Hf & _ & Hsz).
    assert (s = mkStack 4 3 (Some Client.record) (Some Client.show)) as ->.
    { cbn in Hst. rewrite lookup_singleton_eq in Hst. by injection Hst. }
    exists m', s'. split_and!; try done. apply Hsz. done.
Defined.

(** C5 at work: a pop from the stack of three, and from the empty stack. *)
Lemma dynstackPop_outcome_witness :
  stack_at Client.three 1 Client.record Client.show
           [(4, 30); (3, 20); (2, 10)] /\
  stack_at Client.built 1 Client.record Client.show [] /\
  dynstackPop NULL Client.three = Done NULL Client.three /\
  dynstackPop 1 Client.built = Done NULL Client.built /\
  exists m' s',
    dynstackPop 1 Client.three = Done 30 m' /\
    stacks m' !! 1 = Some s' /\
    size s' = 2 /\
    frames m' !! 4 = None /\
    world m' = [].
Proof.
  split_and!; [exact three_at | exact built_at | | |].
  - apply (dynstackPop_outcome _ _ _ _ _ three_at).
  - by apply (dynstackPop_outcome _ _ _ _ _ built_at).
  - destruct (dynstackPop_outcome _ _ _ _ _ three_at) as (_ & _ & Hs).
    destruct (Hs 4 30 _ eq_refl)
      as (m' & s & s' & Hp & _ & Hst & Hst' & _ & Hf & Hw & _ & Hsz).
    assert (s = mkStack 4 3 (Some Client.record) (Some Client.show)) as ->.
    { cbn in Hst. rewrite lookup_singleton_eq in Hst. by injection Hst. }
    exists m', s'. split_and!; try done.
    + by apply Hsz.
    + rewrite Hf. apply lookup_delete_eq.
Defined.

(** C6 at work: pushes and pops in turn on a new stack. *)
Lemma size_after_pushes_pops_witness :
  wf Client.pristine /\
  dynstackNew (Some Client.record) (Some Client.show) Client.pristine
  = Done 1 Client.built /\
  1 <> NULL /\
  exists m1,
    moves 1 [Push 10; Pop; Push 20; Push 30; Pop] Client.built
    = Done [Pushed true; Popped 10; Pushed true; Pushed true; Popped 30] m1 /\
    dynstackGetSize 1 m1 = Done 1 m1 /\
    dynstackIsEmpty 1 m1 = Done false m1 /\
    dynstackGetSize NULL m1 = Done 0 m1.
Proof.
  split_and!; [exact pristine_wf | reflexivity | done |].
  destruct (size_after_pushes_pops Client.pristine Client.record Client.show
              1 Client.built [Push 10; Pop; Push 20; Push 30; Pop]
              pristine_wf eq_refl)
    as (es & m1 & n & Hr & Hsz & He & H0 & Hn); [done|].
  assert (Hes : exists m,
             moves 1 [Push 10; Pop; Push 20; Push 30; Pop] Client.built
             = Done [Pushed true; Popped 10; Pushed true; Pushed true;
                     Popped 30] m)
    by (eexists; vm_compute; reflexivity).
  destruct Hes as (m & Hm). rewrite Hm in Hr. injection Hr as <- <-.
  destruct (Hn eq_refl) as (_ & _ & Hsmall).
  assert (n = 1) as -> by (apply Hsmall; done).
  exists m. split_and!; [exact Hm | exact Hsz | exact He | exact H0].
Defined.

(** C7 at work: clearing the stack of three releases [30], [20], [10]. *)
Lemma dynstackClear_releases_witness :
  stack_at Client.three 1 Client.record Client.show
           [(4, 30); (3, 20); (2, 10)] /\
  3 < UINT_RANGE /\
  (3 < 4)%nat /\
  dynstackClear 4 NULL Client.three = Done tt Client.three /\
  exists m' s',
    dynstackClear 4 1 Client.three = Done tt m' /\
    world m' = [30; 20; 10] /\
    frames m' !! 4 = None /\ frames m' !! 3 = None /\ frames m' !! 2 = None /\
    stacks m' !! 1 = Some s' /\
    size s' = 0 /\
    top s' = NULL.
Proof.
  split_and!; [exact three_at | done | lia |..];
    destruct (dynstackClear_releases _ _ _ _ _ 4%nat three_at)
      as (H0 & m' & s' & Hc & Hw & Hf & _ & Hs & Hsz & Ht);
    [done | cbn; lia | exact H0 | done | cbn; lia |].
  exists m', s'. split_and!; try done; apply Hf; cbn; set_solver.
Defined.

(** The text of the top of the empty stack while the allocator serves. *)
Lemma dynstackTopToString_empty_absent_witness :
  stack_at Client.built 1 Client.record Client.show [] /\
  avail Client.built 0%nat = true /\
  dynstackTopToString 1 Client.built
  = Done (Some EmptyString) (answered Client.built) /\
  dynstackTopToString NULL Client.built = Done None Client.built.
Proof.
  destruct (dynstackTopToString_empty_absent _ _ _ _ built_at eq_refl)
    as (H1 & H2 & _).
  split_and!; [exact built_at | reflexivity | exact H1 | exact H2].
Defined.

(** C9 at work: a run of every kind of operation on a new stack. *)
Lemma size_field_invariant_witness :
  let os := [OpPush 10; OpPush 20; OpPop; OpPeek; OpGetSize; OpIsEmpty;
             OpToString; OpMap (Some Client.record); OpPush 30; OpClear;
             OpPush 40] in
  let m1 := Client.after (run_ops 5 1 os Client.built) in
  wf Client.pristine /\
  dynstackNew (Some Client.record) (Some Client.show) Client.pristine
  = Done 1 Client.built /\
  1 <> NULL /\
  run_ops 5 1 os Client.built = Done tt m1 /\
  exists s ns,
    stacks m1 !! 1 = Some s /\
    chain (frames m1) (top s) ns /\
    size s = Z.of_nat (length ns) /\
    (top s = NULL <-> size s = 0).
Proof.
  intros os m1.
  assert (Hrun : run_ops 5 1 os Client.built = Done tt m1)
    by (vm_compute; reflexivity).
  split_and!; [exact pristine_wf | reflexivity | done | exact Hrun |].
  destruct (size_field_invariant Client.pristine Client.record Client.show
              1 Client.built 5 os) as [Hinv _];
    [exact pristine_wf | reflexivity | done |].
  destruct (Hinv m1 Hrun) as (s & ns & Hs & Hc & Hsz & Ht & Hlt).
  exists s, ns.
  assert (Ht5 : top <$> stacks m1 !! 1 = Some 5) by (vm_compute; reflexivity).
  assert (Hf5 : frames m1 !! 5 = Some (mkFrame 40 NULL))
    by (vm_compute; reflexivity).
  rewrite Hs in Ht5. injection Ht5 as Ht5.
  assert (ns = [(5, 40)]) as ->.
  { eapply chain_functional; [exact Hc|]. rewrite Ht5.
    split_and!; [done..|]. exists NULL. by split. }
  assert (Hsmall : Z.of_nat (length [(5, 40)]) < UINT_RANGE) by done.
  split_and!; [exact Hs | exact Hc | apply (Hlt Hsmall) | apply (Hlt Hsmall)].
Defined.

(** C10 at work: [NULL] pushed onto the stack of three, then popped, and
    pushed while the allocator refuses. *)
Lemma dynstackPush_null_element_witness :
  stack_at Client.three 1 Client.record Client.show
           [(4, 30); (3, 20); (2, 10)] /\
  stack_at Client.exhausted 1 Client.record Client.show
           [(4, 30); (3, 20); (2, 10)] /\
  dynstackPush 1 NULL Client.exhausted = Done false (answered Client.exhausted) /\
  exists m1 m2 s1,
    dynstackPush 1 NULL Client.three = Done true m1 /\
    stacks m1 !! 1 = Some s1 /\
    size s1 = 4 /\
    dynstackPeek 1 m1 = Done NULL m1 /\
    dynstackPop 1 m1 = Done NULL m2 /\
    dynstackPop NULL Client.three = Done NULL Client.three /\
    dynstackPop 1 Client.built = Done NULL Client.built.
Proof.
  split_and!; [exact three_at | exact exhausted_at | |].
  - destruct (dynstackPush_null_element _ _ _ _ _ exhausted_at)
      as (Hrefused & _).
    apply Hrefused. reflexivity.
  - destruct (dynstackPush_null_element _ _ _ _ _ three_at)
      as (_ & Hserved & Hn & _).
    destruct (Hserved eq_refl)
      as (m1 & m2 & s & s1 & Hp & H1 & Hs & Hs1 & Hsz & Hpop & _).
    assert (s = mkStack 4 3 (Some Client.record) (Some Client.show)) as ->.
    { cbn in Hs. rewrite lookup_singleton_eq in Hs. by injection Hs. }
    exists m1, m2, s1. split_and!; try done.
    by rewrite (dynstackPeek_at _ _ _ _ _ H1).
Defined.

(** * Further properties of the code

    What each operation touches, and what follows from it: the outcomes of
    the constructors, the texts and the output of the print conveniences,
    the release of a stack, and the independence of the stacks of one
    memory. *)

Section Further.

Context {W : Type}.
Implicit Types (m : mem W) (fr : gmap Z DynFrame) (ns : list (ptr * ptr)).
Implicit Types (p stack a d : ptr) (del : effect_fn W) (pr : print_fn W).

(** ** What an operation touches *)

Lemma chain_agree fr fr' p ns :
  (forall a, a ∈ ns.*1 -> fr' !! a = fr !! a) -> chain fr p ns -> chain fr' p ns.
Proof.
  revert p. induction ns as [|n ns IH]; intros p Hag; cbn; [done|].
  intros (-> & Hn & q & Hq & Hc). split_and!; [done..|]. exists q. split.
  - rewrite Hag; [done|]. cbn. apply elem_of_cons. by left.
  - apply IH; [|done]. intros a Ha. apply Hag. cbn. apply elem_of_cons. by right.
Qed.

Lemma lookup_foldl_delete_ne fr (l : list ptr) a :
  a ∉ l -> foldl (fun fr a => delete a fr) fr l !! a = fr !! a.
Proof.
  revert fr. induction l as [|b l IH]; intros fr Ha; [done|].
  apply not_elem_of_cons in Ha as [Hne Ha]. cbn [foldl].
  rewrite IH by done. by rewrite lookup_delete_ne.
Qed.

(** A push writes the head of its stack and the node it allocates, nothing
    else. *)
Lemma dynstackPush_frame m stack d b m' :
  dynstackPush stack d m = Done b m' ->
  (forall p, p <> stack -> stacks m' !! p = stacks m !! p) /\
  (forall a, a <> brk m -> frames m' !! a = frames m !! a) /\
  world m' = world m /\
  brk m <= brk m'.
Proof.
  unfold_ops. destruct (decide (stack = NULL)); [by intros [= _ <-]|].
  destruct (avail m 0%nat); [|intros [= _ <-]; cbn; split_and!; (done || lia)].
  destruct (decide (brk m = NULL)) as [e|e];
    destruct (stacks m !! stack) eqn:Hs;
    repeat (mred; rewrite ?Hs); intros [= _ <-]; cbn;
    (split_and!; [|  |done|lia]);
    intros x Hx; rewrite ?insert_insert_eq, ?lookup_insert_ne; done.
Qed.

(** A pop writes the head of its stack and frees the node on top, nothing
    else. *)
Lemma dynstackPop_frame m stack x m' :
  dynstackPop stack m = Done x m' ->
  (forall p, p <> stack -> stacks m' !! p = stacks m !! p) /\
  world m' = world m /\ brk m' = brk m /\ avail m' = avail m.
Proof.
  unfold_ops. destruct (decide (stack = NULL)); [by intros [= _ <-]|].
  destruct (stacks m !! stack) as [s|] eqn:Hs; [|done]. cbn.
  destruct (decide (top s = NULL)); [by intros [= _ <-]|]. cbn.
  destruct (frames m !! top s) as [f|] eqn:Hf; [|done].
  repeat (mred; rewrite ?Hs, ?Hf). intros [= _ <-]. cbn.
  split_and!; try done.
  intros p Hp. by rewrite insert_insert_eq, lookup_insert_ne.
Qed.

(** The loop of [dynstackClear] frees the nodes it pops, writes the head of
    its stack and calls the releaser, nothing else. *)
Lemma clear_loop_footprint fuel m stack del pr ns m' :
  stack_at m stack del pr ns ->
  clear_loop fuel stack m = Done tt m' ->
  exists ns1 ns2,
    ns = ns1 ++ ns2 /\
    stack_at m' stack del pr ns2 /\
    frames m' = foldl (fun fr a => delete a fr) (frames m) ns1.*1 /\
    (forall p, p <> stack -> stacks m' !! p = stacks m !! p) /\
    brk m' = brk m /\
    avail m' = avail m /\
    world m' = foldl (fun w d => del d w) (world m) (elements ns1).
Proof.
  revert m ns. induction fuel as [|fuel IH]; intros m ns H; [done|].
  cbn [clear_loop]. unfold bind at 1.
  rewrite (dynstackIsEmpty_at _ _ _ _ _ H). case_bool_decide as Hsz.
  - intros [= <-]. exists [], ns. by split_and!.
  - destruct (size_nonzero_cons _ Hsz) as (a & d & ns0 & ->).
    destruct (dynstackPop_cons _ _ _ _ _ _ _ H)
      as (m1 & Hp & H1 & Hf1 & Hb1 & Hav1 & Hw1).
    destruct (dynstackPop_frame _ _ _ _ Hp) as (Hst1 & _).
    unfold bind at 1. rewrite Hp. destruct (H1) as [_ (t & Ht & _) _].
    unfold load_stack, bind at 1. rewrite Ht. cbn. intros Hc.
    destruct (IH _ ns0 (stack_at_set_world _ _ _ _ _ (del d) H1) Hc)
      as (ns1 & ns2 & -> & H2 & Hf2 & Hst2 & Hb2 & Hav2 & Hw2).
    exists ((a, d) :: ns1), ns2. split_and!; try done.
    + rewrite Hf2. cbn. by rewrite Hf1.
    + intros p Hp'. rewrite Hst2 by done. cbn. by apply Hst1.
    + rewrite Hb2. done.
    + rewrite Hav2. done.
    + rewrite Hw2. cbn. by rewrite Hw1.
Qed.

(** One operation on a well-formed stack: the other heads are untouched, the
    nodes that are neither of the old chain nor of the new are untouched,
    the nodes that join the chain are newly allocated and the nodes that
    leave it are freed. *)
Lemma run_op_footprint fuel m stack del pr ns o m' :
  stack_at m stack del pr ns ->
  run_op fuel stack o m = Done tt m' ->
  exists ns',
    stack_at m' stack del pr ns' /\
    (forall p, p <> stack -> stacks m' !! p = stacks m !! p) /\
    (forall a, a ∉ ns.*1 -> a ∉ ns'.*1 -> frames m' !! a = frames m !! a) /\
    (forall a, a ∈ ns'.*1 -> a ∈ ns.*1 \/ frames m !! a = None) /\
    (forall a, a ∈ ns.*1 -> a ∉ ns'.*1 -> frames m' !! a = None) /\
    brk m <= brk m' /\
    (length ns' <= S (length ns))%nat.
Proof.
  intros H. pose proof (stack_at_nonnull _ _ _ _ _ H) as Hnn.
  assert (Hsame : forall m1, same_objects m m1 ->
            exists ns',
              stack_at m1 stack del pr ns' /\
              (forall p, p <> stack -> stacks m1 !! p = stacks m !! p) /\
              (forall a, a ∉ ns.*1 -> a ∉ ns'.*1 -> frames m1 !! a = frames m !! a) /\
              (forall a, a ∈ ns'.*1 -> a ∈ ns.*1 \/ frames m !! a = None) /\
              (forall a, a ∈ ns.*1 -> a ∉ ns'.*1 -> frames m1 !! a = None) /\
              brk m <= brk m1 /\
              (length ns' <= S (length ns))%nat).
  { intros m1 Hs. pose proof (stack_at_same_objects _ _ _ _ _ _ Hs H) as H1.
    destruct Hs as (Hf & Hst & Hb). exists ns.
    split_and!; [done| | |by left|done|lia|lia].
    - intros p _. by rewrite Hst.
    - intros a _ _. by rewrite Hf. }
  destruct o as [d| | | | | | |func]; cbn [run_op].
  - intros (b & m1 & Hp & [= <-])%bind_Done.
    destruct (avail m 0%nat) eqn:Hav.
    + destruct (dynstackPush_served _ _ _ _ _ d H Hav) as (m2 & Hp2 & H2 & Hb2 & _).
      rewrite Hp in Hp2. injection Hp2 as -> <-.
      destruct (dynstackPush_frame _ _ _ _ _ Hp) as (Hst & Hfr & _ & _).
      destruct H as [(Hbrk & Hbf & _) _ _].
      assert (Hfresh : frames m !! brk m = None).
      { destruct (frames m !! brk m) eqn:E; [|done].
        destruct (Hbf (brk m)); [by eauto | lia]. }
      exists ((brk m, d) :: ns). split_and!; [done|done| | | |lia|done].
      * intros a _ Ha. apply Hfr. intros ->. apply Ha. cbn.
        apply elem_of_cons. by left.
      * intros a Ha. cbn in Ha. apply elem_of_cons in Ha as [->|Ha]; eauto.
      * intros a Ha Hna. exfalso. apply Hna. cbn. apply elem_of_cons. by right.
    + rewrite dynstackPush_refused in Hp by done. injection Hp as _ <-.
      by apply Hsame.
  - intros (x & m1 & Hp & [= <-])%bind_Done.
    destruct ns as [|[a d] ns].
    + rewrite (dynstackPop_nil _ _ _ _ H) in Hp. injection Hp as _ <-.
      by apply Hsame.
    + destruct (dynstackPop_cons _ _ _ _ _ _ _ H) as (m2 & Hp2 & H2 & Hf & Hb & _).
      rewrite Hp in Hp2. injection Hp2 as _ <-.
      destruct (dynstackPop_frame _ _ _ _ Hp) as (Hst & _).
      exists ns. split_and!; [done|done| | | |lia|cbn; lia].
      * intros a' Ha' _. rewrite Hf. apply lookup_delete_ne. intros ->.
        apply Ha'. cbn. apply elem_of_cons. by left.
      * intros a' Ha'. left. cbn. apply elem_of_cons. by right.
      * intros a' Ha' Hna'. cbn in Ha'. apply elem_of_cons in Ha' as [->|Ha']; [|done].
        rewrite Hf. apply lookup_delete_eq.
  - intros (x & m1 & Hp & [= <-])%bind_Done.
    apply dynstackPeek_same in Hp as ->. by apply Hsame.
  - intros (x & m1 & Hp & [= <-])%bind_Done.
    apply dynstackGetSize_same in Hp as ->. by apply Hsame.
  - intros (x & m1 & Hp & [= <-])%bind_Done.
    apply dynstackIsEmpty_same in Hp as ->. by apply Hsame.
  - unfold dynstackClear. rewrite decide_False by done. intros Hc.
    destruct (clear_loop_footprint _ _ _ _ _ _ _ H Hc)
      as (ns1 & ns2 & -> & H2 & Hf & Hst & Hb & _).
    exists ns2. split_and!; [done|done| | | |lia|rewrite length_app; lia].
    + intros a Ha _. rewrite Hf. apply lookup_foldl_delete_ne.
      intros Hin. apply Ha. rewrite fmap_app. apply elem_of_app. by left.
    + intros a Ha. left. rewrite fmap_app. apply elem_of_app. by right.
    + intros a Ha Hna. rewrite Hf. apply lookup_foldl_delete.
      rewrite fmap_app in Ha. apply elem_of_app in Ha as [Ha|Ha]; done.
  - intros (x & m1 & Hp & [= <-])%bind_Done.
    apply dynstackToString_same in Hp. by apply Hsame.
  - intros Hm. apply dynstackMap_same in Hm. by apply Hsame.
Qed.

(** ** Construction *)

(** X1 ([dynstackNew]): without a releaser or without a renderer the result
    is [NULL] and the allocator is not asked; when the allocator refuses the
    result is [NULL] and nothing is allocated; otherwise the result is a new
    head, at an address that held no object, with no node and count 0, on
    which the size is 0, the stack is empty and a peek or a pop returns
    [NULL].  In every case the nodes, the other heads and the caller's
    world are as before. *)
Theorem dynstackNew_outcome m (deleteFunc : option (effect_fn W))
    (printFunc : option (print_fn W)) :
  wf m ->
  exists st m',
    dynstackNew deleteFunc printFunc m = Done st m' /\
    frames m' = frames m /\
    world m' = world m /\
    (forall p, p <> brk m -> stacks m' !! p = stacks m !! p) /\
    match deleteFunc, printFunc with
    | Some del, Some pr =>
        if avail m 0%nat then
          st = brk m /\ st <> NULL /\
          frames m !! st = None /\ stacks m !! st = None /\
          stacks m' !! st = Some (mkStack NULL 0 (Some del) (Some pr)) /\
          stack_at m' st del pr [] /\
          dynstackGetSize st m' = Done 0 m' /\
          dynstackIsEmpty st m' = Done true m' /\
          dynstackPeek st m' = Done NULL m' /\
          dynstackPop st m' = Done NULL m'
        else st = NULL /\ m' = answered m
    | _, _ => st = NULL /\ m' = m
    end.
Proof.
  intros Hwf.
  destruct deleteFunc as [del|], printFunc as [pr|];
    [|exists NULL, m; by rewrite dynstackNew_missing by eauto..].
  destruct (avail m 0%nat) eqn:Hav.
  - destruct (dynstackNew_served m del pr Hwf Hav) as (m' & Hn & Hat & Hf & _ & Hw).
    pose proof Hwf as (Hbrk & Hfr & Hst).
    assert (Hnn : brk m <> NULL) by (unfold NULL; lia).
    exists (brk m), m'. split_and!; try done.
    + revert Hn. unfold_ops. rewrite Hav. mred.
      intros [= <-]. cbn. intros p Hp. by rewrite lookup_insert_ne.
    + destruct (frames m !! brk m) eqn:E; [|done].
      destruct (Hfr (brk m)); [by eauto | lia].
    + destruct (stacks m !! brk m) eqn:E; [|done].
      destruct (Hst (brk m)); [by eauto | lia].
    + destruct Hat as [_ (t & Ht & Hc) _]. cbn in Hc. by subst t.
    + by rewrite (dynstackGetSize_at _ _ _ _ _ Hat).
    + by rewrite (dynstackIsEmpty_at _ _ _ _ _ Hat).
    + by rewrite (dynstackPeek_at _ _ _ _ _ Hat).
    + by rewrite (dynstackPop_nil _ _ _ _ Hat).
  - exists NULL, (answered m). by rewrite dynstackNew_refused.
Qed.

(** ** Nodes *)

(** X2 ([dynstackFrameNew]): in a well-formed memory the call returns, and
    leaves the memory well-formed with the heads and the caller's world as
    before.  Served, it returns a non-null address that held neither a node
    nor a head, now a node with the element and no successor; refused, it
    returns [NULL] and allocates nothing. *)
Theorem dynstackFrameNew_outcome m d :
  wf m ->
  exists p m',
    dynstackFrameNew d m = Done p m' /\
    wf m' /\
    stacks m' = stacks m /\
    world m' = world m /\
    if avail m 0%nat then
      p = brk m /\ p <> NULL /\
      frames m !! p = None /\ stacks m !! p = None /\
      frames m' = <[p := mkFrame d NULL]> (frames m)
    else p = NULL /\ m' = answered m.
Proof.
  intros Hwf. pose proof Hwf as (Hbrk & Hfr & Hst).
  assert (Hnn : brk m <> NULL) by (unfold NULL; lia).
  unfold_ops. destruct (avail m 0%nat) eqn:Hav; mred.
  - eexists _, _. split; [done|]. cbn. split_and!; try done.
    + unfold wf. cbn. split_and!; [lia|..].
      * intros a [f Hf]. destruct (decide (a = brk m)) as [->|Ha]; [lia|].
        rewrite lookup_insert_ne in Hf by done.
        destruct (Hfr a); [by eauto | lia].
      * intros a Ha. destruct (Hst a); [done | lia].
    + destruct (frames m !! brk m) eqn:E; [|done].
      destruct (Hfr (brk m)); [by eauto | lia].
    + destruct (stacks m !! brk m) eqn:E; [|done].
      destruct (Hst (brk m)); [by eauto | lia].
  - eexists _, _. split; [done|]. split_and!; done.
Qed.

(** ** The top of the stack *)

(** X3 ([dynstackPeek], [dynstackPop]): in any memory and for any pointer,
    [dynstackPeek] returns an element, leaving the memory as it is, exactly
    when [dynstackPop] returns that element; in particular one is defined
    exactly when the other is. *)
Theorem dynstackPeek_agrees_with_pop m stack x :
  dynstackPeek stack m = Done x m <-> exists m', dynstackPop stack m = Done x m'.
Proof.
  unfold dynstackPeek, dynstackPop.
  destruct (decide (stack = NULL)); [unfold ret; split; [eauto | by intros (? & [= -> _])]|].
  unfold load_stack, bind at 1 3.
  destruct (stacks m !! stack) as [s|] eqn:Hs; [|split; [done | by intros (? & ?)]].
  destruct (decide (top s = NULL)); [unfold ret; split; [eauto | by intros (? & [= -> _])]|].
  unfold load_frame, bind at 1 2.
  destruct (frames m !! top s) as [f|] eqn:Hf; [|split; [done | by intros (? & ?)]].
  unfold_ops. rewrite Hs. mred. rewrite Hf. cbn.
  split; [intros [= ->]; eauto | by intros (? & [= -> _])].
Qed.

(** ** Rendering and printing *)

Lemma count_nonzero ns :
  ns <> [] -> Z.of_nat (length ns) < UINT_RANGE ->
  to_uint (Z.of_nat (length ns)) <> 0.
Proof.
  intros Hns Hlt. rewrite to_uint_small by lia.
  destruct ns; [done | cbn; lia].
Qed.

(** X4 ([dynstackTopToString]): on a stack whose count is not 0 the result
    is the renderer's text of the element that [dynstackPeek] returns, the
    top one; the memory is unchanged and the allocator is not asked. *)
Theorem dynstackTopToString_renders_peek m stack del pr ns :
  stack_at m stack del pr ns ->
  to_uint (Z.of_nat (length ns)) <> 0 ->
  exists x,
    head (elements ns) = Some x /\
    dynstackPeek stack m = Done x m /\
    dynstackTopToString stack m = Done (Some (pr (world m) x)) m.
Proof.
  intros H Hsz. destruct (size_nonzero_cons _ Hsz) as (a & d & ns' & ->).
  exists d. split_and!; [done| |].
  - by rewrite (dynstackPeek_at _ _ _ _ _ H).
  - by apply (dynstackTopToString_cons _ _ _ _ _ _ _ H).
Qed.

(** X5 ([dynstackPrintTop]): on an absent stack nothing is written.  On a
    stack whose count is not 0 the output grows by the text of the top
    element and a line break, and the memory is unchanged.  When the count
    is 0 the output grows by a line break alone if the allocator serves the
    one-character buffer, and the behaviour is undefined if it refuses. *)
Theorem dynstackPrintTop_output m stack del pr ns out :
  stack_at m stack del pr ns ->
  dynstackPrintTop NULL out m = Done out m /\
  dynstackPrintTop stack out m =
    if decide (to_uint (Z.of_nat (length ns)) = 0) then
      if avail m 0%nat then Done (out +:+ newline) (answered m) else Undefined
    else
      Done (out +:+ pr (world m) (default NULL (head (elements ns))) +:+ newline) m.
Proof.
  intros H. split; [done|].
  pose proof (stack_at_nonnull _ _ _ _ _ H) as Hnn.
  unfold dynstackPrintTop. rewrite decide_False by done. unfold bind at 1.
  destruct (decide (to_uint (Z.of_nat (length ns)) = 0)) as [Hz|Hz].
  - rewrite (dynstackTopToString_zero _ _ _ _ _ H Hz).
    by destruct (avail m 0%nat).
  - destruct (size_nonzero_cons _ Hz) as (a & d & ns' & ->).
    by rewrite (dynstackTopToString_cons _ _ _ _ _ _ _ H Hz).
Qed.

(** The buffer requests of [dynstackToString]: one for an empty stack, one
    for each node below the top otherwise. *)
Lemma dynstackToString_at m stack del pr ns fuel :
  stack_at m stack del pr ns ->
  Z.of_nat (length ns) < UINT_RANGE ->
  serves m (match ns with [] => 1 | _ :: ns' => length ns' end) ->
  (length ns < fuel)%nat ->
  exists m',
    dynstackToString fuel stack m =
      Done (Some (join_lines (pr (world m) <$> elements ns))) m' /\
    same_objects m m' /\
    world m' = world m /\
    (forall i, avail m' i =
       avail m (match ns with [] => 1 | _ :: ns' => length ns' end + i)%nat).
Proof.
  intros H Hlt Hsv Hfuel. destruct ns as [|[a d] ns'].
  - exists (answered m).
    rewrite (dynstackToString_nil _ _ _ _ _ H); [done| |lia].
    apply Hsv. lia.
  - assert (Hnz : to_uint (Z.of_nat (length ((a, d) :: ns'))) <> 0)
      by by apply count_nonzero.
    destruct (dynstackToString_cons _ _ _ _ _ _ _ fuel H Hnz Hsv)
      as (m' & Hr & Hf & Hs & Hb & Hw & Hav); [cbn in Hfuel; lia|].
    exists m'. by split_and!.
Qed.

(** X6 ([dynstackToString]): for a stack of any number of elements below
    2^32, when the allocator serves the buffer requests (one for an empty
    stack, one for each node below the top otherwise), the result is the
    texts of the elements from the top down, a line break between two of
    them and none at the end; the stack, the nodes and the caller's world
    are unchanged, and exactly that many requests have been answered. *)
Theorem dynstackToString_all m stack del pr ns fuel :
  stack_at m stack del pr ns ->
  Z.of_nat (length ns) < UINT_RANGE ->
  serves m (match ns with [] => 1 | _ :: ns' => length ns' end) ->
  (length ns < fuel)%nat ->
  exists m',
    dynstackToString fuel stack m =
      Done (Some (join_lines (pr (world m) <$> elements ns))) m' /\
    same_objects m m' /\
    world m' = world m /\
    stack_at m' stack del pr ns /\
    (forall i, avail m' i =
       avail m (match ns with [] => 1 | _ :: ns' => length ns' end + i)%nat).
Proof.
  intros H Hlt Hsv Hfuel.
  destruct (dynstackToString_at _ _ _ _ _ _ H Hlt Hsv Hfuel)
    as (m' & Hr & Hs & Hw & Hav).
  exists m'. split_and!; try done. by eapply stack_at_same_objects.
Qed.

(** X7 ([dynstackPrint]): on an absent stack nothing is written; on a stack
    of fewer than 2^32 elements whose buffer requests the allocator serves,
    the output grows by the text of the stack, one line for each element
    from the top down, and a line break, and the objects and the caller's
    world are unchanged. *)
Theorem dynstackPrint_output m stack del pr ns fuel out :
  stack_at m stack del pr ns ->
  Z.of_nat (length ns) < UINT_RANGE ->
  serves m (match ns with [] => 1 | _ :: ns' => length ns' end) ->
  (length ns < fuel)%nat ->
  dynstackPrint fuel NULL out m = Done out m /\
  exists m',
    dynstackPrint fuel stack out m =
      Done (out +:+ join_lines (pr (world m) <$> elements ns) +:+ newline) m' /\
    same_objects m m' /\
    world m' = world m.
Proof.
  intros H Hlt Hsv Hfuel. split; [done|].
  pose proof (stack_at_nonnull _ _ _ _ _ H) as Hnn.
  destruct (dynstackToString_at _ _ _ _ _ _ H Hlt Hsv Hfuel)
    as (m' & Hr & Hs & Hw & _).
  exists m'. unfold dynstackPrint. rewrite decide_False by done.
  unfold bind at 1. by rewrite Hr.
Qed.

(** X8 ([dynstackTopToString], [dynstackToString], the print conveniences):
    the buffers are used unchecked.  When the allocator refuses its next
    request, the behaviour of all four is undefined on an empty stack, and
    that of [dynstackToString] and [dynstackPrint] on a stack of two
    elements or more; a stack of one element needs no buffer and is
    rendered all the same. *)
Theorem text_allocation_unchecked m stack del pr ns fuel :
  stack_at m stack del pr ns ->
  Z.of_nat (length ns) < UINT_RANGE ->
  avail m 0%nat = false ->
  (0 < fuel)%nat ->
  match ns with
  | [] =>
      dynstackTopToString stack m = Undefined /\
      dynstackToString fuel stack m = Undefined /\
      (forall out, dynstackPrintTop stack out m = Undefined) /\
      (forall out, dynstackPrint fuel stack out m = Undefined)
  | [n] =>
      exists m', dynstackToString fuel stack m = Done (Some (pr (world m) n.2)) m'
  | _ :: _ :: _ =>
      dynstackToString fuel stack m = Undefined /\
      (forall out, dynstackPrint fuel stack out m = Undefined)
  end.
Proof.
  intros H Hlt Hav Hfuel.
  pose proof (stack_at_nonnull _ _ _ _ _ H) as Hnn.
  destruct ns as [|[a1 d1] [|[a2 d2] ns']].
  - assert (Ht : dynstackTopToString stack m = Undefined).
    { rewrite (dynstackTopToString_zero _ _ _ _ _ H) by done. by rewrite Hav. }
    assert (Hs : dynstackToString fuel stack m = Undefined).
    { unfold dynstackToString. rewrite decide_False by done.
      unfold bind at 1. by rewrite Ht. }
    split_and!; try done.
    + intros out. unfold dynstackPrintTop. rewrite decide_False by done.
      unfold bind at 1. by rewrite Ht.
    + intros out. unfold dynstackPrint. rewrite decide_False by done.
      unfold bind at 1. by rewrite Hs.
  - assert (Hnz : to_uint (Z.of_nat (length [(a1, d1)])) <> 0)
      by by apply count_nonzero.
    destruct (dynstackToString_cons _ _ _ _ _ _ _ fuel H Hnz) as (m' & Hr & _);
      [intros i Hi; cbn in Hi; lia | cbn; lia |].
    exists m'. by rewrite Hr.
  - assert (Hnz : to_uint (Z.of_nat (length ((a1, d1) :: (a2, d2) :: ns'))) <> 0)
      by by apply count_nonzero.
    assert (Hs : dynstackToString fuel stack m = Undefined).
    { unfold dynstackToString. rewrite decide_False by done.
      unfold bind at 1.
      rewrite (dynstackTopToString_cons _ _ _ _ _ _ _ H Hnz).
      unfold bind at 1. rewrite (dynstackIsEmpty_at _ _ _ _ _ H).
      rewrite bool_decide_eq_false_2 by done.
      destruct H as [_ (t & Ht & Hc) _].
      destruct Hc as (Hta & Htn & q & Hq & Hc2). cbn in Hta. subst t.
      destruct Hc2 as (Hqa & Hqn & q2 & Hq2 & _). cbn in Hqa. subst q.
      destruct fuel as [|fuel']; [lia|].
      unfold_ops. rewrite Ht. cbn. rewrite Hq. cbn.
      rewrite decide_False by done. unfold_ops. rewrite Ht. cbn.
      rewrite Hq2. cbn. by rewrite Hav. }
    split; [done|]. intros out. unfold dynstackPrint.
    rewrite decide_False by done. unfold bind at 1. by rewrite Hs.
Qed.

(** ** Traversal *)

(** X9 ([dynstackMap]): on an absent or an empty stack nothing is called,
    be the visitor null or not.  On a stack of 1 to 2^32 - 1 elements the
    visitor is called once on each element, from the top down, and nothing
    but the caller's world changes; with a null visitor the behaviour is
    undefined. *)
Theorem dynstackMap_visits m stack del pr ns fuel (func : option (effect_fn W)) :
  stack_at m stack del pr ns ->
  Z.of_nat (length ns) < UINT_RANGE ->
  (length ns < fuel)%nat ->
  dynstackMap fuel NULL func m = Done tt m /\
  dynstackMap fuel stack func m =
    match func, ns with
    | _, [] => Done tt m
    | Some f, _ :: _ =>
        Done tt (set_world (fun w => foldl (fun w d => f d w) w (elements ns)) m)
    | None, _ :: _ => Undefined
    end.
Proof.
  intros H Hlt Hfuel. split; [done|].
  pose proof (stack_at_nonnull _ _ _ _ _ H) as Hnn.
  destruct ns as [|[a d] ns'].
  - rewrite (dynstackMap_zero _ _ _ _ _ _ _ H) by done. by destruct func.
  - assert (Hnz : to_uint (Z.of_nat (length ((a, d) :: ns'))) <> 0)
      by by apply count_nonzero.
    destruct func as [f|]; [by apply (dynstackMap_at _ _ _ _ _ _ _ H)|].
    unfold dynstackMap. rewrite decide_False by done.
    unfold bind at 1. rewrite (dynstackIsEmpty_at _ _ _ _ _ H).
    rewrite bool_decide_eq_false_2 by done.
    destruct H as [_ (t & Ht & Hc) _].
    destruct Hc as (Hta & Htn & q & Hq & Hc2). cbn in Hta. subst t.
    destruct fuel as [|fuel']; [cbn in Hfuel; lia|].
    unfold_ops. rewrite Ht. cbn. rewrite decide_False by done.
    unfold_ops. by rewrite Hq.
Qed.

(** ** Release *)

Lemma dynstackFree_footprint m stack del pr ns fuel :
  stack_at m stack del pr ns ->
  Z.of_nat (length ns) < UINT_RANGE ->
  (length ns < fuel)%nat ->
  exists m',
    dynstackFree fuel stack m = Done tt m' /\
    world m' = foldl (fun w d => del d w) (world m) (elements ns) /\
    frames m' = foldl (fun fr a => delete a fr) (frames m) ns.*1 /\
    stacks m' = delete stack (stacks m) /\
    brk m' = brk m /\
    avail m' = avail m.
Proof.
  intros H Hlt Hfuel. pose proof (stack_at_nonnull _ _ _ _ _ H) as Hnn.
  destruct (clear_loop_at m stack del pr ns [] fuel)
    as (m1 & Hc & H1 & Hf & Hb & Hav & Hw).
  { by rewrite app_nil_r. }
  { rewrite app_nil_r. apply to_uint_small. lia. }
  { done. }
  rewrite <- (app_nil_r ns) in H.
  destruct (clear_loop_footprint _ _ _ _ _ _ _ H Hc) as (? & ? & _ & _ & _ & Hst & _).
  destruct H1 as [_ (t & Ht & _) _].
  exists (set_stacks (delete stack) m1). split_and!; try done.
  - unfold dynstackFree, dynstackClear. rewrite !decide_False by done.
    unfold bind at 1. rewrite Hc. unfold free_stack. by rewrite Ht.
  - cbn. apply map_eq. intros p. destruct (decide (p = stack)) as [->|Hp].
    + by rewrite !lookup_delete_eq.
    + rewrite !lookup_delete_ne by done. by apply Hst.
Qed.

(** X10 ([dynstackFree]): on an absent stack nothing is done.  On a stack of
    fewer than 2^32 elements each element is released once, from the top
    down, every node of the stack is freed, no other node is touched, and
    the head is freed while the other heads stay.  The pointer then
    dangles: the size, a peek, a pop and a second [dynstackFree] on it have
    no defined behaviour. *)
Theorem dynstackFree_releases_all m stack del pr ns fuel :
  stack_at m stack del pr ns ->
  Z.of_nat (length ns) < UINT_RANGE ->
  (length ns < fuel)%nat ->
  dynstackFree fuel NULL m = Done tt m /\
  exists m',
    dynstackFree fuel stack m = Done tt m' /\
    world m' = foldl (fun w d => del d w) (world m) (elements ns) /\
    (forall a, frames m' !! a = if decide (a ∈ ns.*1) then None else frames m !! a) /\
    stacks m' = delete stack (stacks m) /\
    dynstackGetSize stack m' = Undefined /\
    dynstackPeek stack m' = Undefined /\
    dynstackPop stack m' = Undefined /\
    dynstackFree fuel stack m' = Undefined.
Proof.
  intros H Hlt Hfuel. pose proof (stack_at_nonnull _ _ _ _ _ H) as Hnn.
  split; [by apply dynstackFree_absent|].
  destruct (dynstackFree_footprint _ _ _ _ _ _ H Hlt Hfuel)
    as (m' & Hr & Hw & Hf & Hs & _).
  assert (Hgone : stacks m' !! stack = None) by (rewrite Hs; apply lookup_delete_eq).
  assert (Hsize : dynstackGetSize stack m' = Undefined).
  { unfold_ops. rewrite decide_False by done. by rewrite Hgone. }
  exists m'. split_and!; try done.
  - intros a. rewrite Hf. case_decide.
    + by apply lookup_foldl_delete.
    + by apply lookup_foldl_delete_ne.
  - unfold_ops. rewrite decide_False by done. by rewrite Hgone.
  - unfold_ops. rewrite decide_False by done. by rewrite Hgone.
  - unfold dynstackFree, dynstackClear. rewrite !decide_False by done.
    destruct fuel as [|fuel']; [lia|].
    cbn [clear_loop]. unfold dynstackIsEmpty, bind. by rewrite Hsize.
Qed.

(** X11 ([dynstackClear]): clearing a stack of fewer than 2^32 elements
    releases them from the top down; clearing it a second time changes
    nothing, so that no element is released twice. *)
Theorem dynstackClear_twice m stack del pr ns fuel :
  stack_at m stack del pr ns ->
  Z.of_nat (length ns) < UINT_RANGE ->
  (length ns < fuel)%nat ->
  exists m',
    dynstackClear fuel stack m = Done tt m' /\
    world m' = foldl (fun w d => del d w) (world m) (elements ns) /\
    dynstackClear fuel stack m' = Done tt m' /\
    (run dynstackClear fuel stack; dynstackClear fuel stack) m = Done tt m'.
Proof.
  intros H Hlt Hfuel. pose proof (stack_at_nonnull _ _ _ _ _ H) as Hnn.
  destruct (clear_loop_at m stack del pr ns [] fuel)
    as (m1 & Hc & H1 & Hf & Hb & Hav & Hw).
  { by rewrite app_nil_r. }
  { rewrite app_nil_r. apply to_uint_small. lia. }
  { done. }
  assert (Hagain : dynstackClear fuel stack m1 = Done tt m1).
  { unfold dynstackClear. rewrite decide_False by done.
    destruct fuel as [|fuel']; [lia|]. cbn [clear_loop]. unfold bind at 1.
    by rewrite (dynstackIsEmpty_at _ _ _ _ _ H1). }
  exists m1. split_and!; try done.
  - unfold dynstackClear. by rewrite decide_False by done.
  - unfold bind. unfold dynstackClear at 1. rewrite decide_False by done.
    by rewrite Hc.
Qed.

(** ** The order of release *)

(** X12 ([dynstackClear], [dynstackMap]): [dynstackClear] releases the
    elements in the order in which [dynstackMap] visits them: the calls
    made by a traversal with the releaser as visitor are the calls made by
    clearing the stack. *)
Theorem dynstackClear_in_map_order m stack del pr ns fuel :
  stack_at m stack del pr ns ->
  Z.of_nat (length ns) < UINT_RANGE ->
  (length ns < fuel)%nat ->
  exists m1 m2,
    dynstackMap fuel stack (Some del) m = Done tt m1 /\
    dynstackClear fuel stack m = Done tt m2 /\
    world m1 = world m2.
Proof.
  intros H Hlt Hfuel. pose proof (stack_at_nonnull _ _ _ _ _ H) as Hnn.
  destruct (clear_loop_at m stack del pr ns [] fuel)
    as (m2 & Hc & _ & _ & _ & _ & Hw).
  { by rewrite app_nil_r. }
  { rewrite app_nil_r. apply to_uint_small. lia. }
  { done. }
  destruct ns as [|[a d] ns'].
  - exists m, m2. rewrite (dynstackMap_zero _ _ _ _ _ _ _ H) by done.
    unfold dynstackClear. rewrite decide_False by done.
    split_and!; [done | exact Hc | by rewrite Hw].
  - eexists _, m2. rewrite (dynstackMap_at _ _ _ _ _ _ _ H);
      [|by apply count_nonzero|done].
    unfold dynstackClear. rewrite decide_False by done.
    split_and!; [done | exact Hc | by rewrite Hw].
Qed.

(** ** Round trips *)

(** X13 ([dynstackPush] then [dynstackPop]): a served push followed by a pop
    returns the pushed element and leaves every node, every head (the count
    included, also when it wraps on the way) and the caller's world as they
    were; only the allocator has moved on. *)
Theorem dynstackPush_pop_round_trip m stack del pr ns d :
  stack_at m stack del pr ns ->
  avail m 0%nat = true ->
  exists m',
    (run dynstackPush stack d; dynstackPop stack) m = Done d m' /\
    frames m' = frames m /\
    stacks m' = stacks m /\
    world m' = world m /\
    brk m' = brk m + 1.
Proof.
  intros H Hav.
  destruct (dynstackPush_served _ _ _ _ _ d H Hav) as (m1 & Hp & H1 & Hb1 & _ & Hw1).
  destruct (dynstackPop_cons _ _ _ _ _ _ _ H1) as (m2 & Hq & H2 & Hf2 & Hb2 & _ & Hw2).
  destruct (dynstackPush_frame _ _ _ _ _ Hp) as (Hs1 & Hf1 & _).
  destruct (dynstackPop_frame _ _ _ _ Hq) as (Hs2 & _).
  exists m2. split_and!.
  - unfold bind. by rewrite Hp.
  - rewrite Hf2. apply map_eq. intros a.
    destruct (decide (a = brk m)) as [->|Ha].
    + rewrite lookup_delete_eq. destruct H as [(Hbrk & Hfr & _) _ _].
      destruct (frames m !! brk m) eqn:E; [|done].
      destruct (Hfr (brk m)); [by eauto | lia].
    + rewrite lookup_delete_ne by done. by apply Hf1.
  - apply map_eq. intros p. destruct (decide (p = stack)) as [->|Hp'].
    + destruct H as [_ (t & Ht & Hc) _]. destruct H2 as [_ (t2 & Ht2 & Hc2) _].
      rewrite Ht, Ht2. do 2 f_equal.
      eapply chain_head; [exact Hc2|].
      eapply chain_agree; [|exact Hc]. done.
    + rewrite Hs2 by done. by apply Hs1.
  - congruence.
  - lia.
Qed.

(** ** Runs of pushes against an allocator that refuses some *)

(** X14 ([dynstackPush], in a run): whatever the allocator answers, a run of
    pushes returns these answers, one for each push, and leaves on the
    stack, above its former nodes, the elements whose push was served, the
    last one on top. *)
Theorem pushes_accepted m stack del pr ns ds :
  stack_at m stack del pr ns ->
  exists m' ns',
    pushes stack ds m = Done (avail m <$> seq 0 (length ds)) m' /\
    stack_at m' stack del pr (ns' ++ ns) /\
    elements ns' = reverse (accepted (avail m) ds) /\
    (forall i, avail m' i = avail m (length ds + i)%nat) /\
    world m' = world m.
Proof.
  revert m ns. induction ds as [|d ds IH]; intros m ns H.
  - exists m, []. by split_and!.
  - pose proof (stack_at_nonnull _ _ _ _ _ H) as Hnn.
    cbn [pushes length seq fmap list_fmap accepted]. unfold bind at 1.
    rewrite <- fmap_S_seq, <- list_fmap_compose.
    destruct (avail m 0%nat) eqn:Hav.
    + destruct (dynstackPush_served _ _ _ _ _ d H Hav)
        as (m1 & Hp & H1 & _ & Hav1 & Hw1).
      destruct (IH m1 _ H1) as (m' & ns' & Hps & H' & He & Hav' & Hw').
      exists m', (ns' ++ [(brk m, d)]). rewrite Hp. unfold bind at 1.
      rewrite Hps, Hav1. split_and!.
      * done.
      * by rewrite <- app_assoc.
      * unfold elements in *. by rewrite fmap_app, He, Hav1, reverse_cons.
      * intros i. by rewrite Hav', Hav1.
      * congruence.
    + rewrite dynstackPush_refused by done.
      destruct (IH (answered m) ns (stack_at_answered _ _ _ _ _ H))
        as (m' & ns' & Hps & H' & He & Hav' & Hw').
      exists m', ns'. unfold bind at 1. rewrite Hps. by split_and!.
Qed.

(** ** Refusals of the allocator *)



(** ** Two stacks in one memory *)

Lemma run_op_independent fuel m s1 del1 pr1 ns1 s2 del2 pr2 ns2 (o : op W) m' :
  stack_at m s1 del1 pr1 ns1 ->
  stack_at m s2 del2 pr2 ns2 ->
  s1 <> s2 ->
  apart ns1 ns2 ->
  run_op fuel s1 o m = Done tt m' ->
  exists ns1',
    stack_at m' s1 del1 pr1 ns1' /\
    stack_at m' s2 del2 pr2 ns2 /\
    apart ns1' ns2.
Proof.
  intros H1 H2 Hne Hap Hr.
  destruct (run_op_footprint _ _ _ _ _ _ _ _ H1 Hr)
    as (ns1' & H1' & Hst & Hfr & Hnew & _).
  assert (Hap' : apart ns1' ns2).
  { intros a Ha Ha2. destruct (Hnew a Ha) as [Hold|Hfresh].
    - by apply (Hap a).
    - destruct H2 as [_ (t & _ & Hc) _].
      destruct (chain_allocated _ _ _ _ Hc Ha2) as [f Hf]. congruence. }
  exists ns1'. split_and!; [done| |done].
  destruct H2 as [_ (t & Ht & Hc) Hnd]. constructor; [by destruct H1'| |done].
  exists t. split; [rewrite Hst; done|].
  eapply chain_agree; [|exact Hc]. intros a Ha. apply Hfr.
  - intros Ha1. by apply (Hap a).
  - intros Ha1. by apply (Hap' a).
Qed.

(** X16 (two stacks): any sequence of operations on one stack leaves another
    stack of the same memory with the nodes and the elements it had, and the
    two stacks still share no node. *)
Theorem stacks_independent fuel m s1 del1 pr1 ns1 s2 del2 pr2 ns2 (os : list (op W)) m' :
  stack_at m s1 del1 pr1 ns1 ->
  stack_at m s2 del2 pr2 ns2 ->
  s1 <> s2 ->
  apart ns1 ns2 ->
  run_ops fuel s1 os m = Done tt m' ->
  exists ns1',
    stack_at m' s1 del1 pr1 ns1' /\
    stack_at m' s2 del2 pr2 ns2 /\
    apart ns1' ns2.
Proof.
  intros H1 H2 Hne. revert m ns1 H1 H2.
  induction os as [|o os IH]; intros m ns1 H1 H2 Hap.
  - intros [= <-]. by exists ns1.
  - cbn [run_ops]. intros (x & m1 & Hr & Hrs)%bind_Done. destruct x.
    destruct (run_op_independent _ _ _ _ _ _ _ _ _ _ _ _ H1 H2 Hne Hap Hr)
      as (ns1' & H1' & H2' & Hap').
    by apply (IH m1 ns1').
Qed.

(** ** A stack owns its nodes: nothing is leaked *)

Lemma dynstackNew_footprint m del pr st m0 :
  wf m ->
  dynstackNew (Some del) (Some pr) m = Done st m0 ->
  st <> NULL ->
  frames m0 = frames m /\
  (forall p, p <> st -> stacks m0 !! p = stacks m !! p) /\
  stacks m !! st = None.
Proof.
  intros (Hbrk & _ & Hst).
  assert (Hnn : brk m <> NULL) by (unfold NULL; lia). unfold_ops.
  destruct (avail m 0%nat); cbn; [|by intros [= <- _]]. mred.
  intros [= <- <-] _. cbn. split_and!; [done| |].
  - intros p Hp. by rewrite lookup_insert_ne.
  - destruct (stacks m !! brk m) eqn:E; [|done].
    destruct (Hst (brk m)); [by eauto | lia].
Qed.

Lemma run_ops_owned fuel (fr0 : gmap Z DynFrame) m stack del pr ns
    (os : list (op W)) m' :
  stack_at m stack del pr ns ->
  (forall a, a ∉ ns.*1 -> frames m !! a = fr0 !! a) ->
  (forall a, a ∈ ns.*1 -> fr0 !! a = None) ->
  run_ops fuel stack os m = Done tt m' ->
  exists ns',
    stack_at m' stack del pr ns' /\
    (forall a, a ∉ ns'.*1 -> frames m' !! a = fr0 !! a) /\
    (forall a, a ∈ ns'.*1 -> fr0 !! a = None) /\
    (forall p, p <> stack -> stacks m' !! p = stacks m !! p) /\
    (length ns' <= length ns + length os)%nat.
Proof.
  revert m ns. induction os as [|o os IH]; intros m ns H Hout Hin.
  - intros [= <-]. exists ns. split_and!; try done. lia.
  - cbn [run_ops]. intros (x & m1 & Hr & Hrs)%bind_Done. destruct x.
    destruct (run_op_footprint _ _ _ _ _ _ _ _ H Hr)
      as (ns1 & H1 & Hst & Hfr & Hnew & Hold & _ & Hlen).
    destruct (IH m1 ns1 H1) as (ns' & H' & Hout' & Hin' & Hst' & Hlen'); [| |done|].
    + intros a Ha1. destruct (decide (a ∈ ns.*1)) as [Ha|Ha].
      * rewrite Hold by done. symmetry. by apply Hin.
      * rewrite Hfr by done. by apply Hout.
    + intros a Ha1. destruct (Hnew a Ha1) as [Ha|Ha]; [by apply Hin|].
      destruct (decide (a ∈ ns.*1)) as [Ha'|Ha']; [by apply Hin|].
      by rewrite <- Hout.
    + exists ns'. split_and!; try done.
      * intros p Hp. rewrite Hst' by done. by apply Hst.
      * cbn [length]. lia.
Qed.

(** X17 (no leak): when a stack is built by [dynstackNew], used by fewer
    than 2^32 operations and destroyed by [dynstackFree], the nodes and the
    heads of the memory are those from before the construction: every node
    the stack allocated has been freed, and no other. *)
Theorem no_leak m del pr st m0 fuel (os : list (op W)) m1 :
  wf m ->
  dynstackNew (Some del) (Some pr) m = Done st m0 ->
  st <> NULL ->
  run_ops fuel st os m0 = Done tt m1 ->
  Z.of_nat (length os) < UINT_RANGE ->
  (length os < fuel)%nat ->
  exists m2,
    dynstackFree fuel st m1 = Done tt m2 /\
    frames m2 = frames m /\
    stacks m2 = stacks m.
Proof.
  intros Hwf Hn Hnn Hr Hlt Hfuel.
  pose proof (dynstackNew_built _ _ _ _ _ Hwf Hn Hnn) as H0.
  destruct (dynstackNew_footprint _ _ _ _ _ Hwf Hn Hnn) as (Hf0 & Hs0 & Hfresh).
  destruct (run_ops_owned fuel (frames m) _ _ _ _ _ os m1 H0)
    as (ns1 & H1 & Hout & Hin & Hst & Hlen);
    [by rewrite Hf0 | by intros a Ha%elem_of_nil | done |].
  cbn [length] in Hlen.
  destruct (dynstackFree_footprint _ _ _ _ _ fuel H1) as (m2 & Hfree & _ & Hf2 & Hs2 & _);
    [lia..|].
  exists m2. split_and!; [done| |].
  - apply map_eq. intros a. rewrite Hf2. destruct (decide (a ∈ ns1.*1)) as [Ha|Ha].
    + rewrite lookup_foldl_delete by done. symmetry. by apply Hin.
    + rewrite lookup_foldl_delete_ne by done. by apply Hout.
  - apply map_eq. intros p. rewrite Hs2. destruct (decide (p = st)) as [->|Hp].
    + by rewrite lookup_delete_eq.
    + rewrite lookup_delete_ne by done. rewrite Hst by done. by apply Hs0.
Qed.

(** ** The caller's world *)

Lemma dynstackTopToString_world m stack r m' :
  dynstackTopToString stack m = Done r m' -> world m' = world m.
Proof.
  unfold dynstackTopToString.
  destruct (decide (stack = NULL)); [by intros [= _ <-]|].
  intros ([] & m1 & He & H)%bind_Done;
    apply dynstackIsEmpty_same in He as ->; revert H; unfold_ops.
  - destruct (avail m 0%nat); [by intros [= _ <-] | done].
  - destruct (stacks m !! stack) as [s|]; [|done]. cbn.
    destruct (frames m !! top s); [|done]. cbn.
    destruct (printData s); [by intros [= _ <-] | done].
Qed.

Lemma toString_loop_world fuel stack cur acc m r m' :
  toString_loop fuel stack cur acc m = Done r m' -> world m' = world m.
Proof.
  revert cur acc m. induction fuel as [|fuel IH]; intros cur acc m; [done|].
  cbn [toString_loop]. destruct (decide (cur = NULL)); [by intros [= _ <-]|].
  unfold_ops. destruct (stacks m !! stack) as [s|]; [|done]. cbn.
  destruct (frames m !! cur) as [f|]; [|done]. cbn.
  destruct (printData s) as [g|]; [|done]. cbn.
  destruct (avail m 0%nat), acc as [t|]; cbn; try done.
  intros H. apply IH in H. done.
Qed.

Lemma dynstackToString_world fuel stack m r m' :
  dynstackToString fuel stack m = Done r m' -> world m' = world m.
Proof.
  unfold dynstackToString.
  destruct (decide (stack = NULL)); [by intros [= _ <-]|].
  intros (t & m1 & Ht & (e & m2 & He & (cur & m3 & Hc & H)%bind_Done)%bind_Done)%bind_Done.
  apply dynstackTopToString_world in Ht.
  apply dynstackIsEmpty_same in He as ->.
  apply toString_loop_world in H.
  assert (m3 = m1) as ->; [|congruence].
  revert Hc. destruct e; [by intros [= _ <-]|]. unfold_ops.
  destruct (stacks m1 !! stack) as [s|]; [|done]. cbn.
  destruct (frames m1 !! top s); [by intros [= _ <-] | done].
Qed.

(** X18 (callbacks): a sequence of operations without [dynstackClear] and
    without [dynstackMap] leaves the caller's world as it was, in any
    memory: pushing, popping, peeking, sizing and rendering release no
    element and call no visitor. *)
Theorem world_untouched fuel m stack (os : list (op W)) m' :
  OpClear ∉ os ->
  (forall func, OpMap func ∉ os) ->
  run_ops fuel stack os m = Done tt m' ->
  world m' = world m.
Proof.
  revert m. induction os as [|o os IH]; intros m Hc Hm; [by intros [= <-]|].
  cbn [run_ops]. intros (x & m1 & Hr & Hrs)%bind_Done.
  apply not_elem_of_cons in Hc as [Hc Hcs].
  assert (Hms : forall func, OpMap func ∉ os).
  { intros func Hin. apply (Hm func). apply elem_of_cons. by right. }
  rewrite (IH m1 Hcs Hms Hrs). clear IH Hrs.
  destruct o as [d| | | | | | |func]; cbn [run_op] in Hr;
    [| | | | |done| |destruct (Hm func); apply elem_of_cons; by left];
    apply bind_Done in Hr as (b & m2 & Hp & Heq); injection Heq as Heq;
    subst m2.
  - by destruct (dynstackPush_frame _ _ _ _ _ Hp) as (_ & _ & Hw & _).
  - by destruct (dynstackPop_frame _ _ _ _ Hp) as (_ & Hw & _).
  - by apply dynstackPeek_same in Hp as ->.
  - by apply dynstackGetSize_same in Hp as ->.
  - by apply dynstackIsEmpty_same in Hp as ->.
  - by apply dynstackToString_world in Hp.
Qed.

(** ** Emptiness is read off the count *)

(** X19 (the count 0): every test for emptiness is [dynstackIsEmpty], which
    reads the count, while [dynstackPeek] and [dynstackPop] read [top].  On
    a stack whose count is 0, whatever it holds, a traversal and a clearing
    do nothing, the texts are empty and a line break alone is printed,
    while a peek returns the element of the top node, if there is one. *)
Theorem emptiness_is_read_off_the_count m stack del pr ns fuel
    (func : option (effect_fn W)) out :
  stack_at m stack del pr ns ->
  to_uint (Z.of_nat (length ns)) = 0 ->
  avail m 0%nat = true ->
  (0 < fuel)%nat ->
  dynstackIsEmpty stack m = Done true m /\
  dynstackMap fuel stack func m = Done tt m /\
  dynstackClear fuel stack m = Done tt m /\
  dynstackTopToString stack m = Done (Some EmptyString) (answered m) /\
  dynstackToString fuel stack m = Done (Some EmptyString) (answered m) /\
  dynstackPrintTop stack out m = Done (out +:+ newline) (answered m) /\
  dynstackPrint fuel stack out m = Done (out +:+ newline) (answered m) /\
  dynstackPeek stack m = Done (default NULL (head (elements ns))) m.
Proof.
  intros H Hz Hav Hfuel. pose proof (stack_at_nonnull _ _ _ _ _ H) as Hnn.
  assert (He : dynstackIsEmpty stack m = Done true m).
  { rewrite (dynstackIsEmpty_at _ _ _ _ _ H). by rewrite bool_decide_eq_true_2. }
  assert (Ht : dynstackTopToString stack m = Done (Some EmptyString) (answered m)).
  { rewrite (dynstackTopToString_zero _ _ _ _ _ H Hz). by rewrite Hav. }
  assert (Hs : dynstackToString fuel stack m = Done (Some EmptyString) (answered m)).
  { by apply (dynstackToString_zero _ _ _ _ _ _ H). }
  split_and!; try done.
  - by apply (dynstackMap_zero _ _ _ _ _ _ _ H).
  - unfold dynstackClear. rewrite decide_False by done.
    destruct fuel as [|fuel']; [lia|]. cbn [clear_loop]. unfold bind at 1.
    by rewrite He.
  - unfold dynstackPrintTop. rewrite decide_False by done. unfold bind at 1.
    by rewrite Ht.
  - unfold dynstackPrint. rewrite decide_False by done. unfold bind at 1.
    by rewrite Hs.
  - by apply (dynstackPeek_at _ _ _ _ _ H).
Qed.

End Further.

(** * The further properties at work *)

Lemma side_by_side_first :
  stack_at Client.side_by_side 1 Client.record Client.show [(3, 10)].
Proof.
  constructor.
  - unfold wf. cbn. split_and!; [lia|..]; intros a [x Hx].
    + apply lookup_insert_Some in Hx as [[<- _]|[_ Hx]]; [lia|].
      apply lookup_singleton_Some in Hx as [<- _]. lia.
    + apply lookup_insert_Some in Hx as [[<- _]|[_ Hx]]; [lia|].
      apply lookup_singleton_Some in Hx as [<- _]. lia.
  - exists 3. split; [done|]. cbn. split_and!; try done. by exists NULL.
  - cbn. apply NoDup_singleton.
Qed.

Lemma side_by_side_second :
  stack_at Client.side_by_side 2 Client.record Client.show [(4, 20)].
Proof.
  destruct side_by_side_first as [Hwf _ _]. constructor; [done| |].
  - exists 4. split; [done|]. cbn. split_and!; try done. by exists NULL.
  - cbn. apply NoDup_singleton.
Qed.

Lemma side_by_side_apart : apart [(3, 10)] [(4, 20)].
Proof.
  intros a Ha Hb. cbn in Ha, Hb.
  apply elem_of_cons in Ha as [->|Ha%elem_of_nil]; [|done].
  by apply elem_of_cons in Hb as [?|Hb%elem_of_nil].
Qed.

Lemma stingy_at : stack_at Client.stingy 1 Client.record Client.show [].
Proof. destruct built_at as [Hwf Hh Hnd]. by constructor. Qed.

Lemma count_three : to_uint (Z.of_nat 3) <> 0.
Proof. by vm_compute. Qed.

(** X1 at work: the first stack of a memory. *)
Lemma dynstackNew_outcome_witness :
  wf Client.pristine /\
  exists m',
    dynstackNew (Some Client.record) (Some Client.show) Client.pristine
    = Done 1 m' /\
    stacks m' !! 1 = Some (mkStack NULL 0 (Some Client.record) (Some Client.show)) /\
    stack_at m' 1 Client.record Client.show [] /\
    dynstackIsEmpty 1 m' = Done true m' /\
    dynstackPop 1 m' = Done NULL m'.
Proof.
  split; [exact pristine_wf|].
  destruct (dynstackNew_outcome Client.pristine (Some Client.record)
              (Some Client.show) pristine_wf)
    as (st & m' & Hn & _ & _ & _ & Hcase).
  cbn in Hcase.
  destruct Hcase as (-> & _ & _ & _ & Hs & Hat & _ & He & _ & Hpop).
  by exists m'.
Defined.

(** X2 at work: the first node of a memory. *)
Lemma dynstackFrameNew_outcome_witness :
  wf Client.pristine /\
  exists m',
    dynstackFrameNew 7 Client.pristine = Done 1 m' /\
    wf m' /\
    frames m' = {[ 1 := mkFrame 7 NULL ]}.
Proof.
  split; [exact pristine_wf|].
  destruct (dynstackFrameNew_outcome Client.pristine 7 pristine_wf)
    as (p & m' & Hn & Hwf & _ & _ & Hcase).
  cbn in Hcase. destruct Hcase as (-> & _ & _ & _ & Hf).
  by exists m'.
Defined.

(** X4 at work: the text of the top of the stack of three. *)
Lemma dynstackTopToString_renders_peek_witness :
  stack_at Client.three 1 Client.record Client.show
           [(4, 30); (3, 20); (2, 10)] /\
  to_uint (Z.of_nat 3) <> 0 /\
  dynstackPeek 1 Client.three = Done 30 Client.three /\
  dynstackTopToString 1 Client.three
  = Done (Some (Client.show [] 30)) Client.three.
Proof.
  split_and!; [exact three_at | exact count_three |..];
    destruct (dynstackTopToString_renders_peek _ _ _ _ _ three_at count_three)
      as (x & [= <-] & Hp & Ht); done.
Defined.

(** X5 at work: the top of the stack of three, printed. *)
Lemma dynstackPrintTop_output_witness :
  stack_at Client.three 1 Client.record Client.show
           [(4, 30); (3, 20); (2, 10)] /\
  dynstackPrintTop NULL "out" Client.three = Done "out" Client.three /\
  dynstackPrintTop 1 "out" Client.three
  = Done ("out" +:+ Client.show [] 30 +:+ newline) Client.three.
Proof.
  split; [exact three_at|].
  destruct (dynstackPrintTop_output _ _ _ _ _ "out" three_at) as [H0 H1].
  split; [exact H0|]. rewrite H1. by rewrite decide_False by exact count_three.
Defined.

(** X6 at work: the text of the stack of three. *)
Lemma dynstackToString_all_witness :
  stack_at Client.three 1 Client.record Client.show
           [(4, 30); (3, 20); (2, 10)] /\
  3 < UINT_RANGE /\
  serves Client.three 2 /\
  (3 < 4)%nat /\
  exists m',
    dynstackToString 4 1 Client.three =
      Done (Some (Client.show [] 30 +:+ newline +:+
                  Client.show [] 20 +:+ newline +:+ Client.show [] 10)) m' /\
    same_objects Client.three m' /\
    world m' = [] /\
    stack_at m' 1 Client.record Client.show [(4, 30); (3, 20); (2, 10)].
Proof.
  assert (Hsv : serves Client.three 2) by (intros i _; reflexivity).
  split_and!; [exact three_at | done | exact Hsv | lia |].
  destruct (dynstackToString_all _ _ _ _ _ 4%nat three_at)
    as (m' & Hr & Hs & Hw & Hat & _); [done | exact Hsv | cbn; lia |].
  by exists m'.
Defined.

(** X7 at work: the stack of three, printed. *)
Lemma dynstackPrint_output_witness :
  stack_at Client.three 1 Client.record Client.show
           [(4, 30); (3, 20); (2, 10)] /\
  3 < UINT_RANGE /\
  serves Client.three 2 /\
  (3 < 4)%nat /\
  dynstackPrint 4 NULL "out" Client.three = Done "out" Client.three /\
  exists m',
    dynstackPrint 4 1 "out" Client.three =
      Done ("out" +:+
            (Client.show [] 30 +:+ newline +:+
             Client.show [] 20 +:+ newline +:+ Client.show [] 10) +:+
            newline) m' /\
    same_objects Client.three m'.
Proof.
  assert (Hsv : serves Client.three 2) by (intros i _; reflexivity).
  split_and!; [exact three_at | done | exact Hsv | lia |..];
    destruct (dynstackPrint_output _ _ _ _ _ 4%nat "out" three_at)
      as (H0 & m' & Hr & Hs & _);
    [done | exact Hsv | cbn; lia | exact H0 | done | exact Hsv | cbn; lia |].
  by exists m'.
Defined.

(** X8 at work: the stack of three rendered while the allocator refuses. *)
Lemma text_allocation_unchecked_witness :
  stack_at Client.exhausted 1 Client.record Client.show
           [(4, 30); (3, 20); (2, 10)] /\
  3 < UINT_RANGE /\
  avail Client.exhausted 0%nat = false /\
  (0 < 4)%nat /\
  dynstackToString 4 1 Client.exhausted = Undefined /\
  dynstackPrint 4 1 "out" Client.exhausted = Undefined.
Proof.
  split_and!; [exact exhausted_at | done | reflexivity | lia |..];
    destruct (text_allocation_unchecked _ _ _ _ _ 4%nat exhausted_at)
      as (Hs & Hp); try done; try lia.
Defined.

(** X9 at work: the stack of three traversed with the recorder. *)
Lemma dynstackMap_visits_witness :
  stack_at Client.three 1 Client.record Client.show
           [(4, 30); (3, 20); (2, 10)] /\
  3 < UINT_RANGE /\
  (3 < 4)%nat /\
  dynstackMap 4 NULL None Client.three = Done tt Client.three /\
  dynstackMap 4 1 None Client.three = Undefined /\
  dynstackMap 4 1 None Client.built = Done tt Client.built /\
  dynstackMap 4 1 (Some Client.record) Client.three
  = Done tt (set_world (fun _ => [30; 20; 10]) Client.three).
Proof.
  assert (Hlt : 3 < UINT_RANGE) by done.
  assert (Hfuel : (3 < 4)%nat) by lia.
  assert (Hlt0 : 0 < UINT_RANGE) by done.
  assert (Hfuel0 : (0 < 4)%nat) by lia.
  destruct (dynstackMap_visits _ _ _ _ _ 4%nat None three_at Hlt Hfuel)
    as [Habsent Hnull].
  destruct (dynstackMap_visits _ _ _ _ _ 4%nat None built_at Hlt0 Hfuel0)
    as [_ Hempty].
  destruct (dynstackMap_visits _ _ _ _ _ 4%nat (Some Client.record) three_at
              Hlt Hfuel) as [_ Hvisits].
  split_and!; [exact three_at | exact Hlt | exact Hfuel | exact Habsent
              | exact Hnull | exact Hempty | exact Hvisits].
Defined.

(** X10 at work: the stack of three destroyed. *)
Lemma dynstackFree_releases_all_witness :
  stack_at Client.three 1 Client.record Client.show
           [(4, 30); (3, 20); (2, 10)] /\
  3 < UINT_RANGE /\
  (3 < 4)%nat /\
  dynstackFree 4 NULL Client.three = Done tt Client.three /\
  exists m',
    dynstackFree 4 1 Client.three = Done tt m' /\
    world m' = [30; 20; 10] /\
    frames m' !! 4 = None /\ frames m' !! 3 = None /\ frames m' !! 2 = None /\
    stacks m' = ∅ /\
    dynstackGetSize 1 m' = Undefined /\
    dynstackFree 4 1 m' = Undefined.
Proof.
  assert (Hlt : 3 < UINT_RANGE) by done.
  assert (Hfuel : (3 < 4)%nat) by lia.
  destruct (dynstackFree_releases_all _ _ _ _ _ 4%nat three_at Hlt Hfuel)
    as (Habsent & m' & Hr & Hw & Hf & Hs & Hsize & _ & _ & Hagain).
  split_and!; [exact three_at | exact Hlt | exact Hfuel | exact Habsent |].
  exists m'. split_and!; [exact Hr | exact Hw | | | | | exact Hsize | exact Hagain].
  - rewrite Hf. apply decide_True. cbn. set_solver.
  - rewrite Hf. apply decide_True. cbn. set_solver.
  - rewrite Hf. apply decide_True. cbn. set_solver.
  - rewrite Hs. cbn. apply delete_singleton_eq.
Defined.

(** X11 at work: the stack of three cleared twice. *)
Lemma dynstackClear_twice_witness :
  stack_at Client.three 1 Client.record Client.show
           [(4, 30); (3, 20); (2, 10)] /\
  3 < UINT_RANGE /\
  (3 < 4)%nat /\
  exists m',
    dynstackClear 4 1 Client.three = Done tt m' /\
    world m' = [30; 20; 10] /\
    (run dynstackClear 4 1; dynstackClear 4 1) Client.three = Done tt m'.
Proof.
  assert (Hlt : 3 < UINT_RANGE) by done.
  assert (Hfuel : (3 < 4)%nat) by lia.
  destruct (dynstackClear_twice _ _ _ _ _ 4%nat three_at Hlt Hfuel)
    as (m' & Hc & Hw & _ & Hcc).
  split_and!; [exact three_at | exact Hlt | exact Hfuel |].
  exists m'. split_and!; [exact Hc | exact Hw | exact Hcc].
Defined.

(** X12 at work: the stack of three, traversed and cleared. *)
Lemma dynstackClear_in_map_order_witness :
  stack_at Client.three 1 Client.record Client.show
           [(4, 30); (3, 20); (2, 10)] /\
  3 < UINT_RANGE /\
  (3 < 4)%nat /\
  exists m1 m2,
    dynstackMap 4 1 (Some Client.record) Client.three = Done tt m1 /\
    dynstackClear 4 1 Client.three = Done tt m2 /\
    world m1 = world m2.
Proof.
  assert (Hlt : 3 < UINT_RANGE) by done.
  assert (Hfuel : (3 < 4)%nat) by lia.
  split_and!; [exact three_at | exact Hlt | exact Hfuel |].
  exact (dynstackClear_in_map_order _ _ _ _ _ 4%nat three_at Hlt Hfuel).
Defined.

(** X13 at work: [40] pushed onto the stack of three and popped. *)
Lemma dynstackPush_pop_round_trip_witness :
  stack_at Client.three 1 Client.record Client.show
           [(4, 30); (3, 20); (2, 10)] /\
  avail Client.three 0%nat = true /\
  exists m',
    (run dynstackPush 1 40; dynstackPop 1) Client.three = Done 40 m' /\
    frames m' = frames Client.three /\
    stacks m' = stacks Client.three /\
    world m' = [] /\
    brk m' = 6.
Proof.
  split_and!; [exact three_at | reflexivity |].
  exact (dynstackPush_pop_round_trip _ _ _ _ _ 40 three_at eq_refl).
Defined.

(** X14 at work: three pushes of which the allocator refuses the second. *)
Lemma pushes_accepted_witness :
  stack_at Client.stingy 1 Client.record Client.show [] /\
  exists m' ns',
    pushes 1 [10; 20; 30] Client.stingy = Done [true; false; true] m' /\
    stack_at m' 1 Client.record Client.show ns' /\
    elements ns' = [30; 10].
Proof.
  split; [exact stingy_at|].
  destruct (pushes_accepted _ _ _ _ _ [10; 20; 30] stingy_at)
    as (m' & ns' & Hp & Hat & He & _).
  rewrite app_nil_r in Hat. by exists m', ns'.
Defined.


(** X16 at work: a session on the first of two stacks. *)
Lemma stacks_independent_witness :
  stack_at Client.side_by_side 1 Client.record Client.show [(3, 10)] /\
  stack_at Client.side_by_side 2 Client.record Client.show [(4, 20)] /\
  1 <> 2 /\
  apart [(3, 10)] [(4, 20)] /\
  exists m' ns1',
    run_ops 8 1 [OpPush 30; OpPush 40; OpPop; OpClear] Client.side_by_side
    = Done tt m' /\
    stack_at m' 1 Client.record Client.show ns1' /\
    stack_at m' 2 Client.record Client.show [(4, 20)] /\
    apart ns1' [(4, 20)].
Proof.
  split_and!; [exact side_by_side_first | exact side_by_side_second | done
              | exact side_by_side_apart |].
  destruct (run_ops_returns 8 _ _ _ _ _ [OpPush 30; OpPush 40; OpPop; OpClear]
              side_by_side_first) as (m' & Hr);
    [done | repeat constructor | cbn; lia |].
  destruct (stacks_independent _ _ _ _ _ _ _ _ _ _ _ _
              side_by_side_first side_by_side_second ltac:(done)
              side_by_side_apart Hr) as (ns1' & H1 & H2 & Hap).
  by exists m', ns1'.
Defined.

(** X17 at work: a stack built in the empty memory, used and destroyed. *)
Lemma no_leak_witness :
  wf Client.pristine /\
  dynstackNew (Some Client.record) (Some Client.show) Client.pristine
  = Done 1 Client.built /\
  1 <> NULL /\
  4 < UINT_RANGE /\
  (4 < 8)%nat /\
  exists m1 m2,
    run_ops 8 1 [OpPush 30; OpPush 40; OpPop; OpPush 50] Client.built
    = Done tt m1 /\
    dynstackFree 8 1 m1 = Done tt m2 /\
    frames m2 = ∅ /\
    stacks m2 = ∅.
Proof.
  assert (Hlt : 4 < UINT_RANGE) by done.
  assert (Hfuel : (4 < 8)%nat) by lia.
  split_and!; [exact pristine_wf | reflexivity | done | exact Hlt | exact Hfuel |].
  destruct (run_ops_returns 8 _ _ _ _ _ [OpPush 30; OpPush 40; OpPop; OpPush 50]
              built_at) as (m1 & Hr);
    [done | repeat constructor | cbn; lia |].
  destruct (no_leak Client.pristine Client.record Client.show 1 Client.built 8
              _ m1 pristine_wf built_by_dynstackNew ltac:(done) Hr Hlt Hfuel)
    as (m2 & Hfree & Hf & Hs).
  by exists m1, m2.
Defined.

(** X18 at work: a session without a callback. *)
Lemma world_untouched_witness :
  (@OpClear Client.log
     ∉ [OpPush 30; OpPeek; OpToString; OpPop; OpGetSize; OpIsEmpty]) /\
  (forall func,
     @OpMap Client.log func
     ∉ [OpPush 30; OpPeek; OpToString; OpPop; OpGetSize; OpIsEmpty]) /\
  exists m',
    run_ops 8 1 [OpPush 30; OpPeek; OpToString; OpPop; OpGetSize; OpIsEmpty]
            Client.one = Done tt m' /\
    world m' = [].
Proof.
  assert (Hc : @OpClear Client.log
                 ∉ [OpPush 30; OpPeek; OpToString; OpPop; OpGetSize; OpIsEmpty]).
  { intros H. repeat (apply elem_of_cons in H as [H|H]; [discriminate|]).
    by apply elem_of_nil in H. }
  assert (Hm : forall func, @OpMap Client.log func
                 ∉ [OpPush 30; OpPeek; OpToString; OpPop; OpGetSize; OpIsEmpty]).
  { intros func H. repeat (apply elem_of_cons in H as [H|H]; [discriminate|]).
    by apply elem_of_nil in H. }
  split_and!; [exact Hc | exact Hm |].
  destruct (run_ops_returns 8 _ _ _ _ _
              [OpPush 30; OpPeek; OpToString; OpPop; OpGetSize; OpIsEmpty]
              one_at) as (m' & Hr);
    [done | repeat constructor | cbn; lia |].
  exists m'. split; [exact Hr|].
  exact (world_untouched _ _ _ _ _ Hc Hm Hr).
Defined.

(** X19 at work: the new stack, whose count is 0, and the stack that [2^32]
    pushes of [7] have built, whose count is 0 again. *)
Lemma emptiness_is_read_off_the_count_witness :
  (stack_at Client.built 1 Client.record Client.show [] /\
   to_uint (Z.of_nat 0) = 0 /\
   avail Client.built 0%nat = true /\
   (0 < 1)%nat /\
   dynstackMap 1 1 (Some Client.record) Client.built = Done tt Client.built /\
   dynstackPrint 1 1 "out" Client.built
   = Done ("out" +:+ newline) (answered Client.built) /\
   dynstackPeek 1 Client.built = Done NULL Client.built) /\
  exists m,
    pushes 1 (replicate Client.once_around 7) Client.built
    = Done (replicate Client.once_around true) m /\
    dynstackIsEmpty 1 m = Done true m /\
    dynstackMap 1 1 (Some Client.record) m = Done tt m /\
    dynstackToString 1 1 m = Done (Some EmptyString) (answered m) /\
    dynstackPeek 1 m = Done 7 m.
Proof.
  split.
  - destruct (emptiness_is_read_off_the_count Client.built 1 Client.record
                Client.show [] 1 (Some Client.record) "out" built_at
                eq_refl eq_refl (le_n 1))
      as (_ & Hmap & _ & _ & _ & _ & Hprint & Hpeek).
    split_and!; [exact built_at | reflexivity | reflexivity | exact (le_n 1)
                | exact Hmap | exact Hprint | exact Hpeek].
  - pose proof once_around_eq as Hn. revert Hn.
    generalize Client.once_around. intros n Hn.
    destruct (grown_at n 7) as (m & ns & Hp & H & Hel & Hlen & Hw & Hav).
    destruct (grown_nonempty n 7 ns) as (a & ns' & ->); [|done|].
    { rewrite UINT_RANGE_eq in Hn. lia. }
    assert (Hz : to_uint (Z.of_nat (length ((a, 7) :: ns'))) = 0).
    { rewrite Hlen, Hn. reflexivity. }
    destruct (emptiness_is_read_off_the_count m 1 Client.record Client.show
                _ 1 (Some Client.record) "out" H Hz (Hav 0%nat) (le_n 1))
      as (He & Hmap & _ & _ & Hs & _ & _ & Hpeek).
    exists m. split_and!; [exact Hp | exact He | exact Hmap | exact Hs
                          | exact Hpeek].
Defined.
